(** * Promotion-rule validation and flat-rate order tax calculation

    A shallow embedding of
    - [saleor/graphql/discount/mutations/promotion/validators.py]
    - [saleor/tax/calculations/order.py]
    together with the properties of these two modules that the
    specification states.

    Conventions of the embedding.
    - A Python dict that is used as a JSON object (the predicate trees) is
      an association list in insertion order; building one goes through
      [dict_set], which is what a dict display or comprehension does.
    - The [cleaned_input] dict has a fixed set of keys; it is a record
      whose fields tell "key absent" ([None]) from "key present"
      ([Some v], where [v] may itself be Python's [None]).
    - [errors] is a [defaultdict(list)]: a [gmap] from field names to
      lists, where reading a missing key for [append] creates it.
    - Exceptions are values of a sum type; functions that mutate their
      arguments return the new state.
    - [Decimal] amounts are exact rationals ([Q]); Python's [==] on
      decimals is numeric and is [Qeq] here.  The context precision of
      28 significant digits, which bounds the digits of a quotient, is
      not part of the model. *)

From Stdlib Require Import Ascii String DecimalString QArith Qround Lqa.
From stdpp Require Import gmap strings list fin_maps.

Local Open Scope string_scope.
Local Open Scope Z_scope.

(** ** Exceptions and results *)

Inductive ErrorCode :=
| REQUIRED
| MIXED_PREDICATES
| MIXED_PROMOTION_PREDICATES
| INVALID
| INVALID_PRECISION
| MISSING_CHANNELS
| MULTIPLE_CURRENCIES_NOT_ALLOWED
| RULES_NUMBER_LIMIT
| DUPLICATED_INPUT_ITEM.

(** [params]: [None] when the constructor gets no [params] argument,
    [Some None] for the empty dict and [Some (Some i)] for
    [{"index": i}]. *)
Record ValidationError := mkValidationError {
  message : string;
  code : ErrorCode;
  params : option (option Z)
}.

(** [{"index": index} if index is not None else {}] *)
Definition index_params (index : option Z) : option (option Z) := Some index.

Inductive exn :=
| ExcValidation (e : ValidationError)
| ExcAttribute
| ExcType
| ExcDivisionByZero
| ExcInvalidOperation.

Inductive result (A : Type) :=
| Ok (a : A)
| Raise (e : exn).
Arguments Ok {A} a.
Arguments Raise {A} e.

Definition bind {A B} (r : result A) (k : A → result B) : result B :=
  match r with
  | Ok a => k a
  | Raise e => Raise e
  end.

Definition succeeds {A} (r : result A) : Prop := ∃ a, r = Ok a.

(** ** Predicate trees *)

Unset Elimination Schemes.
Inductive pyval :=
| PNone
| PBool (b : bool)
| PInt (z : Z)
| PStr (s : string)
| PList (l : list pyval)
| PDict (d : list (string * pyval)).
Set Elimination Schemes.

Section PyvalInd.
Variable P : pyval → Prop.
Hypothesis HNone : P PNone.
Hypothesis HBool : ∀ b, P (PBool b).
Hypothesis HInt : ∀ z, P (PInt z).
Hypothesis HStr : ∀ s, P (PStr s).
Hypothesis HList : ∀ l, Forall P l → P (PList l).
Hypothesis HDict : ∀ d, Forall (fun kv => P (snd kv)) d → P (PDict d).

Fixpoint pyval_ind (v : pyval) : P v :=
  match v with
  | PNone => HNone
  | PBool b => HBool b
  | PInt z => HInt z
  | PStr s => HStr s
  | PList l =>
      HList l ((fix items (l : list pyval) : Forall P l :=
                  match l with
                  | [] => @List.Forall_nil _ P
                  | x :: r => @List.Forall_cons _ P x r (pyval_ind x) (items r)
                  end) l)
  | PDict d =>
      HDict d ((fix items (d : list (string * pyval))
                  : Forall (fun kv => P (snd kv)) d :=
                  match d with
                  | [] => @List.Forall_nil _ _
                  | kv :: r => @List.Forall_cons _ _ kv r (pyval_ind (snd kv)) (items r)
                  end) d)
  end.
End PyvalInd.

(** [isinstance(v, (dict, list))] *)
Definition is_dict_or_list (v : pyval) : bool :=
  match v with
  | PList _ | PDict _ => true
  | _ => false
  end.

(** Python truthiness of a predicate value. *)
Definition truthy (v : pyval) : bool :=
  match v with
  | PNone => false
  | PBool b => b
  | PInt z => negb (z =? 0)
  | PStr s => negb (String.eqb s "")
  | PList l => negb (Nat.eqb (length l) 0)
  | PDict d => negb (Nat.eqb (length d) 0)
  end.

(** [key in d] *)
Definition dict_has (key : string) (d : list (string * pyval)) : bool :=
  existsb (fun kv => String.eqb key (fst kv)) d.

(** [list(d.keys())] *)
Definition dict_keys (d : list (string * pyval)) : list string := map fst d.

(** [d[key] = value]: an existing key keeps its position. *)
Fixpoint dict_set (key : string) (value : pyval) (d : list (string * pyval))
  : list (string * pyval) :=
  match d with
  | [] => [(key, value)]
  | (k, v) :: r =>
      if String.eqb key k then (k, value) :: r
      else (k, v) :: dict_set key value r
  end.

(** ** [graphene.utils.str_converters.to_camel_case]

    The function is imported from the graphene package:
    [components = snake_str.split("_")] and then
    [components[0] + "".join(x.capitalize() if x else "_" for x in components[1:])].
    Letters are the ASCII ones; other bytes are left as they are. *)

Definition ascii_upper (c : ascii) : ascii :=
  let n := nat_of_ascii c in
  if (97 <=? n)%nat && (n <=? 122)%nat then ascii_of_nat (n - 32) else c.

Definition ascii_lower (c : ascii) : ascii :=
  let n := nat_of_ascii c in
  if (65 <=? n)%nat && (n <=? 90)%nat then ascii_of_nat (n + 32) else c.

Fixpoint string_map (f : ascii → ascii) (s : string) : string :=
  match s with
  | EmptyString => EmptyString
  | String c r => String (f c) (string_map f r)
  end.

(** [str.capitalize] *)
Definition capitalize (s : string) : string :=
  match s with
  | EmptyString => EmptyString
  | String c r => String (ascii_upper c) (string_map ascii_lower r)
  end.

(** [s.split(sep)] for a one-character separator; [cur] is the component
    being read, reversed. *)
Fixpoint split_on (sep : ascii) (s : string) (cur : string) : list string :=
  match s with
  | EmptyString => [String.rev cur]
  | String c r =>
      if Ascii.eqb c sep then String.rev cur :: split_on sep r EmptyString
      else split_on sep r (String c cur)
  end.

Definition to_camel_case (snake_str : string) : string :=
  match split_on "_"%char snake_str EmptyString with
  | [] => EmptyString
  | first :: rest =>
      first +:+ String.concat ""
        (map (fun x => if String.eqb x "" then "_" else capitalize x) rest)
  end.

(** ** [clean_predicate] and [_contains_operator] *)

(** [any([operator in input for operator in ["AND", "OR"]])] *)
Definition _contains_operator (input : list (string * pyval)) : bool :=
  existsb (fun operator => dict_has operator input) ["AND"; "OR"].

Definition mixed_operators_error (index : option Z) : ValidationError :=
  {| message := "Cannot mix operators with other filter inputs.";
     code := INVALID;
     params := index_params index |}.

(** [rec(item) if isinstance(item, (dict, list)) else item], the element
    expression of both comprehensions, over the recursive call [rec]. *)
Definition clean_item (rec : pyval → result pyval) (v : pyval)
  : result pyval :=
  if is_dict_or_list v then rec v else Ok v.

(** The list comprehension of [clean_predicate]. *)
Definition clean_list (rec : pyval → result pyval)
  : list pyval → result (list pyval) :=
  fix go (l : list pyval) :=
    match l with
    | [] => Ok []
    | item :: rest =>
        match clean_item rec item with
        | Raise e => Raise e
        | Ok v =>
            match go rest with
            | Raise e => Raise e
            | Ok vs => Ok (v :: vs)
            end
        end
    end.

(** The dict comprehension of [clean_predicate]: the entries are stored
    one after the other into the dict [acc] under construction. *)
Definition clean_items (rec : pyval → result pyval)
  : list (string * pyval) → list (string * pyval)
    → result (list (string * pyval)) :=
  fix go (d acc : list (string * pyval)) :=
    match d with
    | [] => Ok acc
    | (key, value) :: rest =>
        match clean_item rec value with
        | Raise e => Raise e
        | Ok v => go rest (dict_set (to_camel_case key) v acc)
        end
    end.

Fixpoint clean_predicate (predicate : pyval) (index : option Z)
  : result pyval :=
  match predicate with
  | PList l =>
      match clean_list (fun item => clean_predicate item index) l with
      | Raise e => Raise e
      | Ok vs => Ok (PList vs)
      end
  | PDict d =>
      if _contains_operator d && (1 <? length d)%nat then
        Raise (ExcValidation (mixed_operators_error index))
      else
        match clean_items (fun value => clean_predicate value index) d [] with
        | Raise e => Raise e
        | Ok d' => Ok (PDict d')
        end
  | _ => Raise ExcAttribute
  end.

(** ** [str(predicate)]

    The text of a predicate value, as [str] gives it for dicts, lists,
    strings, ints, booleans and [None].  Bytes above 127 belong to
    printable characters and are kept. *)

Definition hex_digit (n : nat) : ascii :=
  if (n <? 10)%nat then ascii_of_nat (48 + n) else ascii_of_nat (87 + n).

Fixpoint str_has_char (c : ascii) (s : string) : bool :=
  match s with
  | EmptyString => false
  | String c' r => Ascii.eqb c c' || str_has_char c r
  end.

Definition repr_char (quote : ascii) (c : ascii) : string :=
  let n := nat_of_ascii c in
  if Ascii.eqb c "\"%char then "\\"
  else if Ascii.eqb c quote then String "\"%char (String c EmptyString)
  else if (n =? 9)%nat then "\t"
  else if (n =? 10)%nat then "\n"
  else if (n =? 13)%nat then "\r"
  else if (n <? 32)%nat || (n =? 127)%nat then
    String "\"%char (String "x"%char
      (String (hex_digit (n / 16)) (String (hex_digit (n mod 16)) EmptyString)))
  else String c EmptyString.

Fixpoint repr_chars (quote : ascii) (s : string) : string :=
  match s with
  | EmptyString => EmptyString
  | String c r => repr_char quote c +:+ repr_chars quote r
  end.

Definition double_quote : ascii := ascii_of_nat 34.
Definition single_quote : ascii := ascii_of_nat 39.

Definition repr_str (s : string) : string :=
  let quote :=
    if str_has_char single_quote s && negb (str_has_char double_quote s)
    then double_quote else single_quote in
  String quote (repr_chars quote s +:+ String quote EmptyString).

Definition repr_int (z : Z) : string := NilZero.string_of_int (Z.to_int z).

Definition join_with (sep : string) (parts : list string) : string :=
  String.concat sep parts.

Fixpoint py_str (v : pyval) : string :=
  match v with
  | PNone => "None"
  | PBool true => "True"
  | PBool false => "False"
  | PInt z => repr_int z
  | PStr s => repr_str s
  | PList l => "[" +:+ join_with ", " (map py_str l) +:+ "]"
  | PDict d =>
      "{" +:+ join_with ", "
        (map (fun kv => repr_str (fst kv) +:+ ": " +:+ py_str (snd kv)) d)
      +:+ "}"
  end.

(** [needle in s] on strings *)
Fixpoint str_contains (needle s : string) : bool :=
  String.prefix needle s
  || match s with
     | EmptyString => false
     | String _ r => str_contains needle r
     end.

(** ** Data of the validator *)

Inductive RewardValueType := FIXED | PERCENTAGE.
Inductive RewardType := SUBTOTAL_DISCOUNT | GIFT.
Inductive PredicateType := CATALOGUE | CHECKOUT_AND_ORDER.

Record Channel := mkChannel {
  channel_pk : Z;
  currency_code : string
}.

Record Promotion := mkPromotion {
  rules_count : Z  (* [promotion.rules.count()] *)
}.

(** The stored rule ([instance]). *)
Record PromotionRule := mkPromotionRule {
  rule_catalogue_predicate : pyval;
  rule_checkout_and_order_predicate : pyval;
  rule_reward_type : option RewardType;
  rule_reward_value : option Q;
  rule_reward_value_type : option RewardValueType;
  rule_channels : list Channel
}.

(** [cleaned_input].  Every field is [None] when the key is not in the
    dict; the value under a present key may be Python's [None]
    ([PNone], or the inner [None]). *)
Record CleanedInput := mkCleanedInput {
  catalogue_predicate : option pyval;
  checkout_and_order_predicate : option pyval;
  reward_type : option (option RewardType);
  reward_value : option (option Q);
  reward_value_type : option (option RewardValueType);
  channels : option (option (list Channel));
  add_channels : option (option (list Channel));
  remove_channels : option (option (list Channel));
  promotion : option (option Promotion)
}.

(** What the validator reads from outside this module:
    [validate_price_precision] of [graphql/core/validators.py] ([true]
    when it returns, [false] when it raises [ValidationError]) and
    [settings.CHECKOUT_AND_ORDER_RULES_LIMIT]. *)
Record ValidatorEnv := mkValidatorEnv {
  validate_price_precision : Q → string → bool;
  CHECKOUT_AND_ORDER_RULES_LIMIT : Z
}.

(** [errors]: a [defaultdict(list)] *)
Abbreviation Errors := (gmap string (list ValidationError)).

(** [errors[field].append(error)] *)
Definition errors_append (field : string) (error : ValidationError)
  (errors : Errors) : Errors :=
  <[field := (default [] (errors !! field) ++ [error])%list]> errors.

(** [for field in fields: errors[field].append(error)] *)
Definition errors_append_all (fields : list string) (error : ValidationError)
  (errors : Errors) : Errors :=
  fold_left (fun errs field => errors_append field error errs) fields errors.

(** [cleaned_input.get(key)] for the predicate keys *)
Definition get_predicate (o : option pyval) : pyval := default PNone o.

(** [a or b] on predicate values *)
Definition pyval_or (a b : pyval) : pyval := if truthy a then a else b.

Definition is_none (v : pyval) : bool :=
  match v with
  | PNone => true
  | _ => false
  end.

(** [a or b] where the values are enum members or [None]; a member is
    truthy. *)
Definition option_or {A} (a b : option A) : option A :=
  match a with
  | Some _ => a
  | None => b
  end.

(** Truthiness of a [Decimal] or [None] *)
Definition decimal_truthy (v : option Q) : bool :=
  match v with
  | Some q => negb (Qeq_bool q 0)
  | None => false
  end.

Definition is_some {A} (o : option A) : bool :=
  match o with
  | Some _ => true
  | None => false
  end.

(** [key in cleaned_input] *)
Definition key_in (key : string) (cleaned_input : CleanedInput) : bool :=
  if String.eqb key "catalogue_predicate" then
    is_some (catalogue_predicate cleaned_input)
  else if String.eqb key "checkout_and_order_predicate" then
    is_some (checkout_and_order_predicate cleaned_input)
  else if String.eqb key "reward_type" then is_some (reward_type cleaned_input)
  else if String.eqb key "reward_value" then is_some (reward_value cleaned_input)
  else if String.eqb key "reward_value_type" then
    is_some (reward_value_type cleaned_input)
  else if String.eqb key "channels" then is_some (channels cleaned_input)
  else if String.eqb key "add_channels" then is_some (add_channels cleaned_input)
  else if String.eqb key "remove_channels" then
    is_some (remove_channels cleaned_input)
  else if String.eqb key "promotion" then is_some (promotion cleaned_input)
  else false.

(** [cleaned_input.get(key)] for a key that holds an enum member, a
    decimal, a list or an object *)
Definition get {A} (o : option (option A)) : option A :=
  match o with
  | Some v => v
  | None => None
  end.

Definition set_catalogue_predicate (v : pyval) (ci : CleanedInput)
  : CleanedInput :=
  {| catalogue_predicate := Some v;
     checkout_and_order_predicate := checkout_and_order_predicate ci;
     reward_type := reward_type ci;
     reward_value := reward_value ci;
     reward_value_type := reward_value_type ci;
     channels := channels ci;
     add_channels := add_channels ci;
     remove_channels := remove_channels ci;
     promotion := promotion ci |}.

Definition set_checkout_and_order_predicate (v : pyval) (ci : CleanedInput)
  : CleanedInput :=
  {| catalogue_predicate := catalogue_predicate ci;
     checkout_and_order_predicate := Some v;
     reward_type := reward_type ci;
     reward_value := reward_value ci;
     reward_value_type := reward_value_type ci;
     channels := channels ci;
     add_channels := add_channels ci;
     remove_channels := remove_channels ci;
     promotion := promotion ci |}.

(** ** [_clean_predicates] *)

Definition predicates_required_error (index : option Z) : ValidationError :=
  {| message := "At least one of predicates is required: 'cataloguePredicate' or 'checkoutAndOrderPredicate'.";
     code := REQUIRED;
     params := index_params index |}.

Definition mixed_predicates_error (index : option Z) : ValidationError :=
  {| message := "Only one of predicates can be provided: 'cataloguePredicate' or 'checkoutAndOrderPredicate'.";
     code := MIXED_PREDICATES;
     params := index_params index |}.

Definition mixed_promotion_checkout_error (index : option Z)
  : ValidationError :=
  {| message := "Predicate types can't be mixed. Given promotion already have a rule with 'checkoutAndOrderPredicate' defined.";
     code := MIXED_PROMOTION_PREDICATES;
     params := index_params index |}.

Definition mixed_promotion_catalogue_error (index : option Z)
  : ValidationError :=
  {| message := "Predicate types can't be mixed. Given promotion already have a rule with 'cataloguePredicate' defined.";
     code := MIXED_PROMOTION_PREDICATES;
     params := index_params index |}.

Definition predicate_fields : list string :=
  ["catalogue_predicate"; "checkout_and_order_predicate"].

(** [predicate_type and predicate_type == kind] *)
Definition predicate_type_is (kind : PredicateType)
  (predicate_type : option PredicateType) : bool :=
  match predicate_type, kind with
  | Some CATALOGUE, CATALOGUE => true
  | Some CHECKOUT_AND_ORDER, CHECKOUT_AND_ORDER => true
  | _, _ => false
  end.

(** Returns the flag [invalid_predicates] and the new [errors]. *)
Definition _clean_predicates (cleaned_input : CleanedInput)
  (catalogue_predicate checkout_and_order_predicate : pyval)
  (errors : Errors) (index : option Z)
  (predicate_type : option PredicateType) (instance : option PromotionRule)
  : bool * Errors :=
  if is_none catalogue_predicate && is_none checkout_and_order_predicate then
    (true,
     errors_append_all predicate_fields (predicates_required_error index)
       errors)
  else if truthy catalogue_predicate && truthy checkout_and_order_predicate
  then
    let error_fields :=
      if is_some instance
      then List.filter (fun field => key_in field cleaned_input)
             predicate_fields
      else predicate_fields in
    (true,
     errors_append_all error_fields (mixed_predicates_error index) errors)
  else if truthy catalogue_predicate
          && predicate_type_is CHECKOUT_AND_ORDER predicate_type then
    (true,
     errors_append "catalogue_predicate"
       (mixed_promotion_checkout_error index) errors)
  else if truthy checkout_and_order_predicate
          && predicate_type_is CATALOGUE predicate_type then
    (true,
     errors_append "checkout_and_order_predicate"
       (mixed_promotion_catalogue_error index) errors)
  else (false, errors).

(** ** [_clean_catalogue_predicate] *)

Definition reward_type_forbidden_error (index : option Z) : ValidationError :=
  {| message := "The rewardType can't be specified for rule with cataloguePredicate.";
     code := INVALID;
     params := index_params index |}.

Definition _clean_catalogue_predicate (cleaned_input : CleanedInput)
  (catalogue_predicate : pyval) (errors : Errors) (index : option Z)
  (instance : option PromotionRule) : result (CleanedInput * Errors) :=
  if negb (truthy catalogue_predicate) then Ok (cleaned_input, errors)
  else
    let reward_type0 := get (reward_type cleaned_input) in
    let reward_type1 :=
      match instance with
      | Some inst =>
          if negb (key_in "reward_type" cleaned_input)
          then option_or reward_type0 (rule_reward_type inst)
          else reward_type0
      | None => reward_type0
      end in
    if is_some reward_type1 then
      Ok (cleaned_input,
          errors_append "reward_type" (reward_type_forbidden_error index)
            errors)
    else if negb (key_in "catalogue_predicate" cleaned_input) then
      Ok (cleaned_input, errors)
    else
      match clean_predicate catalogue_predicate index with
      | Ok cleaned =>
          Ok (set_catalogue_predicate cleaned cleaned_input, errors)
      | Raise (ExcValidation error) =>
          Ok (cleaned_input, errors_append "catalogue_predicate" error errors)
      | Raise e => Raise e
      end.

(** ** [_clean_checkout_and_order_predicate] *)

Definition reward_type_required_error (index : option Z) : ValidationError :=
  {| message := "The rewardType is required when checkoutAndOrderPredicate is provided.";
     code := REQUIRED;
     params := index_params index |}.

Definition price_currencies_error (index : option Z) : ValidationError :=
  {| message := "For price based predicates, all channels must have the same currency.";
     code := MULTIPLE_CURRENCIES_NOT_ALLOWED;
     params := index_params index |}.

Definition rules_limit_error (rules_limit : Z) : ValidationError :=
  {| message := "Number of rules has reached the limit of "
                +:+ repr_int rules_limit +:+ " rules per single promotion.";
     code := RULES_NUMBER_LIMIT;
     params := None |}.

Definition price_fields : list string :=
  ["subtotal_price"; "subtotalPrice"; "total_price"; "totalPrice"].

(** [any(field in str(predicate) for field in [...])] *)
Definition price_based (predicate : pyval) : bool :=
  existsb (fun field => str_contains field (py_str predicate)) price_fields.

Definition _clean_checkout_and_order_predicate (env : ValidatorEnv)
  (cleaned_input : CleanedInput) (checkout_and_order_predicate : pyval)
  (channel_currencies : gset string) (errors : Errors) (index : option Z)
  (instance : option PromotionRule) : result (CleanedInput * Errors) :=
  if negb (truthy checkout_and_order_predicate) then
    Ok (cleaned_input, errors)
  else
    let reward_type0 := get (reward_type cleaned_input) in
    let reward_type1 :=
      match instance with
      | Some inst =>
          if negb (key_in "reward_type" cleaned_input)
          then option_or reward_type0 (rule_reward_type inst)
          else reward_type0
      | None => reward_type0
      end in
    if negb (is_some reward_type1) then
      Ok (cleaned_input,
          errors_append "reward_type" (reward_type_required_error index)
            errors)
    else
      let price_based_predicate := price_based checkout_and_order_predicate in
      if (1 <? size channel_currencies)%nat && price_based_predicate then
        let error_field :=
          if is_some instance then
            if key_in "add_channels" cleaned_input then "add_channels"
            else "checkout_and_order_predicate"
          else "channels" in
        Ok (cleaned_input,
            errors_append error_field (price_currencies_error index) errors)
      else if negb (key_in "checkout_and_order_predicate" cleaned_input) then
        Ok (cleaned_input, errors)
      else
        match clean_predicate checkout_and_order_predicate index with
        | Raise (ExcValidation error) =>
            Ok (cleaned_input,
                errors_append "checkout_and_order_predicate" error errors)
        | Raise e => Raise e
        | Ok cleaned =>
            let cleaned_input :=
              set_checkout_and_order_predicate cleaned cleaned_input in
            match get (promotion cleaned_input) with
            | Some promotion =>
                let rules_limit := CHECKOUT_AND_ORDER_RULES_LIMIT env in
                if rules_limit <=? rules_count promotion then
                  Ok (cleaned_input,
                      errors_append "checkout_and_order_predicate"
                        (rules_limit_error rules_limit) errors)
                else Ok (cleaned_input, errors)
            | None => Ok (cleaned_input, errors)
            end
        end.

(** ** [_get_channel_currencies] *)

(** [{channel.currency_code for channel in channels}] *)
Definition currency_codes (chans : list Channel) : gset string :=
  list_to_set (map currency_code chans).

(** A list, or [None], is truthy when it is a non-empty list. *)
Definition nonempty_list {A} (v : option (list A)) : option (list A) :=
  match v with
  | Some (x :: r) => Some (x :: r)
  | _ => None
  end.

Definition _get_channel_currencies (cleaned_input : CleanedInput)
  (instance : option PromotionRule) : result (gset string) :=
  match instance with
  | None =>
      match channels cleaned_input with
      | None => Ok (currency_codes [])
      | Some (Some chans) => Ok (currency_codes chans)
      | Some None => Raise ExcType
      end
  | Some inst =>
      let channel_currencies := currency_codes (rule_channels inst) in
      let channel_currencies :=
        match nonempty_list (get (remove_channels cleaned_input)) with
        | Some remove_channels =>
            channel_currencies ∖ currency_codes remove_channels
        | None => channel_currencies
        end in
      let channel_currencies :=
        match nonempty_list (get (add_channels cleaned_input)) with
        | Some add_channels => channel_currencies ∪ currency_codes add_channels
        | None => channel_currencies
        end in
      Ok channel_currencies
  end.

(** ** [_clean_reward] and [_clean_reward_value] *)

Definition invalid_precision_error (index : option Z) : ValidationError :=
  {| message := "Invalid amount precision.";
     code := INVALID_PRECISION;
     params := index_params index |}.

Definition invalid_percentage_error (index : option Z) : ValidationError :=
  {| message := "Invalid percentage value.";
     code := INVALID;
     params := index_params index |}.

(** [None] when the function returns, the raised error otherwise. *)
Definition clean_fixed_discount_value (env : ValidatorEnv) (reward_value : Q)
  (currency_code : string) (index : option Z) : option ValidationError :=
  if validate_price_precision env reward_value currency_code then None
  else Some (invalid_precision_error index).

Definition clean_percentage_discount_value (reward_value : Q)
  (index : option Z) : option ValidationError :=
  if negb (Qle_bool reward_value 100)
  then Some (invalid_percentage_error index)
  else None.

Definition missing_channels_error (index : option Z) : ValidationError :=
  {| message := "Channels must be specified for FIXED rewardValueType.";
     code := MISSING_CHANNELS;
     params := index_params index |}.

Definition fixed_currencies_error (index : option Z) : ValidationError :=
  {| message := "For FIXED rewardValueType, all channels must have the same currency.";
     code := MULTIPLE_CURRENCIES_NOT_ALLOWED;
     params := index_params index |}.

Definition _clean_reward_value (env : ValidatorEnv)
  (cleaned_input : CleanedInput) (reward_value : Q)
  (reward_value_type : RewardValueType) (channel_currencies : gset string)
  (errors : Errors) (index : option Z) (instance : option PromotionRule)
  : Errors :=
  match reward_value_type with
  | FIXED =>
      if is_some (errors !! "channels") then errors
      else if (size channel_currencies =? 0)%nat then
        let error_field :=
          if is_some instance then
            if key_in "reward_value_type" cleaned_input
            then "reward_value_type" else "remove_channels"
          else "channels" in
        errors_append error_field (missing_channels_error index) errors
      else if (1 <? size channel_currencies)%nat then
        let error_field :=
          if is_some instance then
            if key_in "reward_value_type" cleaned_input
            then "reward_value_type" else "add_channels"
          else "reward_value_type" in
        errors_append error_field (fixed_currencies_error index) errors
      else
        (* [channel_currencies.pop()] on a set of one element *)
        match elements channel_currencies with
        | [] => errors
        | currency :: _ =>
            match clean_fixed_discount_value env reward_value currency index
            with
            | Some error => errors_append "reward_value" error errors
            | None => errors
            end
        end
  | PERCENTAGE =>
      match clean_percentage_discount_value reward_value index with
      | Some error => errors_append "reward_value" error errors
      | None => errors
      end
  end.

Definition reward_value_type_required_error (index : option Z)
  : ValidationError :=
  {| message := "The rewardValueType is required when cataloguePredicate or checkoutAndOrderPredicate is provided.";
     code := REQUIRED;
     params := index_params index |}.

Definition reward_value_required_error (index : option Z) : ValidationError :=
  {| message := "The rewardValue is required when cataloguePredicate or checkoutAndOrderPredicate is provided.";
     code := REQUIRED;
     params := index_params index |}.

Definition _clean_reward (env : ValidatorEnv) (cleaned_input : CleanedInput)
  (catalogue_predicate checkout_and_order_predicate : pyval)
  (currencies : gset string) (errors : Errors) (index : option Z)
  (instance : option PromotionRule) : Errors :=
  if is_some instance
     && negb (key_in "reward_value" cleaned_input)
     && negb (key_in "reward_value_type" cleaned_input)
  then errors
  else
    let reward_value0 := get (reward_value cleaned_input) in
    let reward_value_type0 := get (reward_value_type cleaned_input) in
    let reward_value1 :=
      match instance with
      | Some inst =>
          if key_in "reward_value" cleaned_input then reward_value0
          else rule_reward_value inst
      | None => reward_value0
      end in
    let reward_value_type1 :=
      match instance with
      | Some inst =>
          if key_in "reward_value_type" cleaned_input then reward_value_type0
          else rule_reward_value_type inst
      | None => reward_value_type0
      end in
    let any_predicate :=
      truthy (pyval_or catalogue_predicate checkout_and_order_predicate) in
    let errors :=
      if negb (is_some reward_value_type1) && any_predicate
      then errors_append "reward_value_type"
             (reward_value_type_required_error index) errors
      else errors in
    let errors :=
      if negb (is_some reward_value1) && any_predicate
      then errors_append "reward_value" (reward_value_required_error index)
             errors
      else errors in
    match reward_value1, reward_value_type1 with
    | Some value, Some value_type =>
        if decimal_truthy (Some value) then
          _clean_reward_value env cleaned_input value value_type currencies
            errors index instance
        else errors
    | _, _ => errors
    end.

(** ** [clean_promotion_rule] *)

(** Returns [cleaned_input] and [errors] as the call leaves them. *)
Definition clean_promotion_rule (env : ValidatorEnv)
  (cleaned_input : CleanedInput) (errors : Errors) (index : option Z)
  (predicate_type : option PredicateType) (instance : option PromotionRule)
  : result (CleanedInput * Errors) :=
  let catalogue_predicate0 :=
    get_predicate (catalogue_predicate cleaned_input) in
  let checkout_and_order_predicate0 :=
    get_predicate (checkout_and_order_predicate cleaned_input) in
  let catalogue_predicate1 :=
    match instance with
    | Some inst =>
        pyval_or catalogue_predicate0 (rule_catalogue_predicate inst)
    | None => catalogue_predicate0
    end in
  let checkout_and_order_predicate1 :=
    match instance with
    | Some inst =>
        pyval_or checkout_and_order_predicate0
          (rule_checkout_and_order_predicate inst)
    | None => checkout_and_order_predicate0
    end in
  let '(invalid_predicates, errors) :=
    _clean_predicates cleaned_input catalogue_predicate1
      checkout_and_order_predicate1 errors index predicate_type instance in
  if negb invalid_predicates then
    bind (_get_channel_currencies cleaned_input instance)
      (fun channel_currencies =>
    bind (_clean_catalogue_predicate cleaned_input catalogue_predicate1
            errors index instance)
      (fun '(cleaned_input, errors) =>
    bind (_clean_checkout_and_order_predicate env cleaned_input
            checkout_and_order_predicate1 channel_currencies errors index
            instance)
      (fun '(cleaned_input, errors) =>
    Ok (cleaned_input,
        _clean_reward env cleaned_input catalogue_predicate1
          checkout_and_order_predicate1 channel_currencies errors index
          instance))))
  else Ok (cleaned_input, errors).

(** ** Money of the tax module

    All amounts of one order are in [order.currency]; a [Money] is its
    [Decimal] amount.  [TaxedMoney] follows the prices package: sums are
    component-wise, [<] compares the gross amounts, [==] both amounts,
    and [a <= b] is [a == b or a < b]. *)

Definition Qlt_bool (a b : Q) : bool := negb (Qle_bool b a).

Record TaxedMoney := mkTaxedMoney {
  net : Q;
  gross : Q
}.

Definition zero_money (currency : string) : Q := 0%Q.

Definition zero_taxed_money (currency : string) : TaxedMoney :=
  mkTaxedMoney (zero_money currency) (zero_money currency).

Definition taxed_add (a b : TaxedMoney) : TaxedMoney :=
  mkTaxedMoney (net a + net b)%Q (gross a + gross b)%Q.

(** [TaxedMoney - Money] *)
Definition taxed_sub_money (a : TaxedMoney) (m : Q) : TaxedMoney :=
  mkTaxedMoney (net a - m)%Q (gross a - m)%Q.

(** [TaxedMoney * int] *)
Definition taxed_mul (a : TaxedMoney) (n : Z) : TaxedMoney :=
  mkTaxedMoney (net a * inject_Z n)%Q (gross a * inject_Z n)%Q.

Definition taxed_lt (a b : TaxedMoney) : bool := Qlt_bool (gross a) (gross b).

Definition taxed_eq (a b : TaxedMoney) : bool :=
  Qeq_bool (gross a) (gross b) && Qeq_bool (net a) (net b).

Definition taxed_le (a b : TaxedMoney) : bool := taxed_eq a b || taxed_lt a b.

(** The builtin [max(a, b)]: [b] when [b > a], that is when [a < b]. *)
Definition money_max (a b : Q) : Q := if Qlt_bool a b then b else a.

Definition taxed_max (a b : TaxedMoney) : TaxedMoney :=
  if taxed_lt a b then b else a.

(** [a / b] on decimals *)
Definition decimal_div (a b : Q) : result Q :=
  if Qeq_bool b 0 then
    Raise (if Qeq_bool a 0 then ExcInvalidOperation else ExcDivisionByZero)
  else Ok (a / b)%Q.


(** [sum(values)] *)
Definition decimal_sum (values : list Q) : Q := fold_left Qplus values 0%Q.

(** ** Data of the tax module *)

Record TaxClass := mkTaxClass {
  tax_class_pk : Z
}.

Record Product := mkProduct {
  tax_class_id : option Z;
  tax_class : option TaxClass;
  product_type_tax_class : option TaxClass
}.

Record ProductVariant := mkProductVariant {
  product : option Product
}.

Record OrderLine := mkOrderLine {
  variant : option ProductVariant;
  base_unit_price : Q;
  undiscounted_base_unit_price : Q;
  quantity : Z;
  unit_price : TaxedMoney;
  undiscounted_unit_price : TaxedMoney;
  total_price : TaxedMoney;
  undiscounted_total_price : TaxedMoney;
  tax_rate : Q
}.

Inductive OrderDiscountType :=
| MANUAL
| OtherDiscountType (name : string).

Record OrderDiscount := mkOrderDiscount {
  discount_type : OrderDiscountType;
  amount : Q
}.

Record Order := mkOrder {
  currency : string;
  base_shipping_price : Q;
  shipping_price : TaxedMoney;
  discounts : list OrderDiscount
}.

(** What the calculator calls outside this module.  [quantize_price] is
    applied to a [Decimal] ([quantize_decimal]) and to the amounts of a
    [Money] or [TaxedMoney] ([quantize_money]); the two round with the
    rule of their type. *)
Record TaxEnv := mkTaxEnv {
  quantize_decimal : Q → string → Q;
  quantize_money : Q → string → Q;
  get_total_order_discount_excluding_shipping : Order → Q;
  base_order_total : Order → list OrderLine → Q;
  get_tax_rate_for_tax_class : option TaxClass → Q → string → Q;
  calculate_flat_rate_tax : Q → Q → bool → TaxedMoney;
  normalize_tax_rate_for_db : Q → Q
}.

(** [quantize_price] on a [TaxedMoney] *)
Definition quantize_taxed (env : TaxEnv) (price : TaxedMoney)
  (currency : string) : TaxedMoney :=
  mkTaxedMoney (quantize_money env (net price) currency)
    (quantize_money env (gross price) currency).

(** ** [_calculate_order_total] *)

(** [order.discounts.filter(type=OrderDiscountType.MANUAL).first()] *)
Definition is_manual (d : OrderDiscount) : bool :=
  match discount_type d with
  | MANUAL => true
  | _ => false
  end.

Definition first_manual_discount (order : Order) : option OrderDiscount :=
  head (List.filter is_manual (discounts order)).

(** The loop over [lines]: the pair [(total, undiscounted_subtotal)]. *)
Definition sum_line_totals (currency : string) (lines : list OrderLine)
  : TaxedMoney * TaxedMoney :=
  fold_left
    (fun acc line =>
       (taxed_add (fst acc) (total_price line),
        taxed_add (snd acc) (undiscounted_total_price line)))
    lines (zero_taxed_money currency, zero_taxed_money currency).

Definition _calculate_order_total (env : TaxEnv) (order : Order)
  (lines : list OrderLine) : TaxedMoney :=
  let currency := currency order in
  let default_value := base_order_total env order lines in
  let default_value := mkTaxedMoney default_value default_value in
  if taxed_le default_value (zero_taxed_money currency) then
    quantize_taxed env default_value currency
  else
    let '(total, undiscounted_subtotal) := sum_line_totals currency lines in
    let total := taxed_add total (shipping_price order) in
    let total :=
      match first_manual_discount order with
      | Some order_discount =>
          if Qlt_bool (gross undiscounted_subtotal) (amount order_discount)
          then
            let remaining_amount :=
              (amount order_discount - gross undiscounted_subtotal)%Q in
            taxed_sub_money total remaining_amount
          else total
      | None => total
      end in
    quantize_taxed env (taxed_max total (zero_taxed_money currency)) currency.

(** ** [update_taxes_for_order_lines] *)

(** The locals of one iteration that handles a discount. *)
Record LineDiscount := mkLineDiscount {
  discount_amount : Q;
  price_with_discounts : Q
}.

Definition line_tax_class (v : ProductVariant) : option TaxClass :=
  match product v with
  | Some p =>
      match tax_class_id p with
      | Some pk => if pk =? 0 then product_type_tax_class p else tax_class p
      | None => product_type_tax_class p
      end
  | None => None
  end.

(** The assignments at the end of the loop body. *)
Definition store_line_taxes (env : TaxEnv) (currency : string) (line : OrderLine)
  (price_with_discounts tax_rate : Q) (prices_entered_with_tax : bool)
  : OrderLine :=
  let unit_price :=
    calculate_flat_rate_tax env price_with_discounts tax_rate
      prices_entered_with_tax in
  let undiscounted_unit_price :=
    calculate_flat_rate_tax env (undiscounted_base_unit_price line) tax_rate
      prices_entered_with_tax in
  {| variant := variant line;
     base_unit_price := base_unit_price line;
     undiscounted_base_unit_price := undiscounted_base_unit_price line;
     quantity := quantity line;
     unit_price := quantize_taxed env unit_price currency;
     undiscounted_unit_price :=
       quantize_taxed env undiscounted_unit_price currency;
     total_price :=
       quantize_taxed env (taxed_mul unit_price (quantity line)) currency;
     undiscounted_total_price :=
       quantize_taxed env (taxed_mul undiscounted_unit_price (quantity line))
         currency;
     tax_rate := normalize_tax_rate_for_db env tax_rate |}.

(** [line.base_unit_price * line.quantity], as an amount *)
Definition line_total_price (line : OrderLine) : Q :=
  (base_unit_price line * inject_Z (quantity line))%Q.

(** The discount part of the loop body, for a line with a variant and a
    nonzero [total_discount_amount]; [is_last] is [line is lines[-1]]. *)
Definition line_discount (env : TaxEnv) (currency : string)
  (total_discount_amount order_total_price total_line_discounts : Q)
  (line : OrderLine) (is_last : bool) : result LineDiscount :=
  let line_total_price := line_total_price line in
  bind (if is_last then Ok (total_discount_amount - total_line_discounts)%Q
        else
          bind (decimal_div line_total_price order_total_price)
            (fun ratio =>
               Ok (quantize_decimal env (ratio * total_discount_amount)%Q
                     currency)))
    (fun discount_amount =>
  bind (decimal_div (line_total_price - discount_amount)%Q
          (inject_Z (quantity line)))
    (fun unit =>
  Ok {| discount_amount := discount_amount;
        price_with_discounts :=
          money_max (quantize_money env unit currency)
            (zero_money currency) |})).

(** The loop.  The lines of the list are distinct objects, so
    [line is lines[-1]] holds at the last position and nowhere else.  The
    result pairs every line, as the iteration leaves it, with the locals
    of its discount step ([None] for a line that is skipped or when there
    is no discount to distribute). *)
Fixpoint lines_loop (env : TaxEnv) (currency country_code : string)
  (default_tax_rate : Q) (prices_entered_with_tax : bool)
  (total_discount_amount order_total_price : Q)
  (lines : list OrderLine) (total_line_discounts : Q)
  : result (list (OrderLine * option LineDiscount)) :=
  match lines with
  | [] => Ok []
  | line :: rest =>
      match variant line with
      | None =>
          bind (lines_loop env currency country_code default_tax_rate
                  prices_entered_with_tax total_discount_amount
                  order_total_price rest total_line_discounts)
            (fun done => Ok ((line, None) :: done))
      | Some v =>
          let tax_rate :=
            get_tax_rate_for_tax_class env (line_tax_class v) default_tax_rate
              country_code in
          if negb (Qeq_bool total_discount_amount 0) then
            let is_last := match rest with [] => true | _ => false end in
            bind (line_discount env currency total_discount_amount
                    order_total_price total_line_discounts line is_last)
              (fun d =>
            bind (lines_loop env currency country_code default_tax_rate
                    prices_entered_with_tax total_discount_amount
                    order_total_price rest
                    (total_line_discounts + discount_amount d)%Q)
              (fun done =>
            Ok ((store_line_taxes env currency line (price_with_discounts d)
                   tax_rate prices_entered_with_tax, Some d) :: done)))
          else
            bind (lines_loop env currency country_code default_tax_rate
                    prices_entered_with_tax total_discount_amount
                    order_total_price rest total_line_discounts)
              (fun done =>
            Ok ((store_line_taxes env currency line (base_unit_price line)
                   tax_rate prices_entered_with_tax, None) :: done))
      end
  end.

(** [sum([line.base_unit_price.amount * line.quantity for line in lines])] *)
Definition order_total_price_of (lines : list OrderLine) : Q :=
  decimal_sum (map line_total_price lines).

(** The run of the function with the locals of each iteration. *)
Definition update_taxes_trace (env : TaxEnv) (order : Order)
  (lines : list OrderLine) (country_code : string) (default_tax_rate : Q)
  (prices_entered_with_tax : bool)
  : result (list (OrderLine * option LineDiscount)) :=
  let currency := currency order in
  let total_discount_amount :=
    get_total_order_discount_excluding_shipping env order in
  let order_total_price := order_total_price_of lines in
  lines_loop env currency country_code default_tax_rate
    prices_entered_with_tax total_discount_amount order_total_price lines 0%Q.

Definition update_taxes_for_order_lines (env : TaxEnv) (order : Order)
  (lines : list OrderLine) (country_code : string) (default_tax_rate : Q)
  (prices_entered_with_tax : bool) : result (list OrderLine) :=
  bind (update_taxes_trace env order lines country_code default_tax_rate
          prices_entered_with_tax)
    (fun done => Ok (map fst done)).

(** The discount shares of a run, in the order of the lines. *)
Definition discount_shares (done : list (OrderLine * option LineDiscount))
  : list Q :=
  omap (fun entry => discount_amount <$> snd entry) done.

(** ** The channel set of the specification

    "effective currency set = (existing channels − removed) ∪ added":
    the channels are told apart by their primary key. *)

Definition channel_in (c : Channel) (chans : list Channel) : bool :=
  existsb (fun c' => channel_pk c =? channel_pk c') chans.

Definition effective_channels (existing removed added : list Channel)
  : list Channel :=
  (List.filter (fun c => negb (channel_in c removed)) existing ++ added)%list.

Definition spec_channel_currencies (cleaned_input : CleanedInput)
  (instance : PromotionRule) : gset string :=
  currency_codes
    (effective_channels (rule_channels instance)
       (default [] (get (remove_channels cleaned_input)))
       (default [] (get (add_channels cleaned_input)))).

(** ** Effective values of an update or create input *)

(** The reward type that stages 2 and 3 look at. *)
Definition effective_reward_type (cleaned_input : CleanedInput)
  (instance : option PromotionRule) : option RewardType :=
  match instance with
  | Some inst =>
      if key_in "reward_type" cleaned_input
      then get (reward_type cleaned_input)
      else option_or (get (reward_type cleaned_input)) (rule_reward_type inst)
  | None => get (reward_type cleaned_input)
  end.

(** The reward value and its type that stage 4 looks at. *)
Definition effective_reward_value (cleaned_input : CleanedInput)
  (instance : option PromotionRule) : option Q :=
  match instance with
  | Some inst =>
      if key_in "reward_value" cleaned_input
      then get (reward_value cleaned_input)
      else rule_reward_value inst
  | None => get (reward_value cleaned_input)
  end.

Definition effective_reward_value_type (cleaned_input : CleanedInput)
  (instance : option PromotionRule) : option RewardValueType :=
  match instance with
  | Some inst =>
      if key_in "reward_value_type" cleaned_input
      then get (reward_value_type cleaned_input)
      else rule_reward_value_type inst
  | None => get (reward_value_type cleaned_input)
  end.

(** The predicates that [clean_promotion_rule] hands to its stages. *)
Definition effective_catalogue_predicate (cleaned_input : CleanedInput)
  (instance : option PromotionRule) : pyval :=
  match instance with
  | Some inst =>
      pyval_or (get_predicate (catalogue_predicate cleaned_input))
        (rule_catalogue_predicate inst)
  | None => get_predicate (catalogue_predicate cleaned_input)
  end.

Definition effective_checkout_and_order_predicate
  (cleaned_input : CleanedInput) (instance : option PromotionRule) : pyval :=
  match instance with
  | Some inst =>
      pyval_or (get_predicate (checkout_and_order_predicate cleaned_input))
        (rule_checkout_and_order_predicate inst)
  | None => get_predicate (checkout_and_order_predicate cleaned_input)
  end.

(** ** Stable keys

    A key is stable when renaming it twice is renaming it once and the
    renaming does not turn a plain key into an operator. *)

Definition is_operator (key : string) : bool :=
  String.eqb key "AND" || String.eqb key "OR".

Definition stable_key (key : string) : bool :=
  String.eqb (to_camel_case (to_camel_case key)) (to_camel_case key)
  && implb (is_operator (to_camel_case key)) (is_operator key).

Fixpoint stable_keys (v : pyval) : bool :=
  match v with
  | PList l => forallb stable_keys l
  | PDict d => forallb (fun kv => stable_key (fst kv) && stable_keys (snd kv)) d
  | _ => true
  end.

(** ** The base total of the specification *)

(** Modelled from the spec: [base_order_total] of
    [order/base_calculations.py] is not among the sources; the
    specification calls its value the base total of the order, "lines +
    shipping, no tax". *)
Definition spec_base_order_total (order : Order) (lines : list OrderLine)
  : Q :=
  (order_total_price_of lines + base_shipping_price order)%Q.

(** ** Sums of taxed amounts *)

Definition taxed_sum (currency : string) (prices : list TaxedMoney)
  : TaxedMoney :=
  fold_left taxed_add prices (zero_taxed_money currency).

(** ** An instance of the environments, for running the code on examples *)

(** [Decimal.quantize] to [places] decimal places, ties away from zero
    ([ROUND_HALF_UP]). *)
Definition round_half_up (places : Z) (q : Q) : Q :=
  let scaled := (q * inject_Z (10 ^ places))%Q in
  let n :=
    if Qle_bool 0 scaled then Qfloor (scaled + (1 # 2))%Q
    else Qceiling (scaled - (1 # 2))%Q in
  (inject_Z n / inject_Z (10 ^ places))%Q.

(** [Decimal.quantize] to [places] decimal places, ties to the even
    neighbour ([ROUND_HALF_EVEN]). *)
Definition round_half_even (places : Z) (q : Q) : Q :=
  let scaled := (q * inject_Z (10 ^ places))%Q in
  let low := Qfloor scaled in
  let rest := (scaled - inject_Z low)%Q in
  let n :=
    if Qlt_bool rest (1 # 2) then low
    else if Qlt_bool (1 # 2) rest then low + 1
    else if Z.even low then low else low + 1 in
  (inject_Z n / inject_Z (10 ^ places))%Q.

(** [calculate_flat_rate_tax] of [tax/calculations/__init__.py] *)
Definition flat_rate_tax (money tax_rate : Q) (prices_entered_with_tax : bool)
  : TaxedMoney :=
  let factor := (1 + tax_rate / 100)%Q in
  if prices_entered_with_tax
  then mkTaxedMoney (money / factor)%Q money
  else mkTaxedMoney money (money * factor)%Q.

(** Modelled from the spec: [quantize_price], the order helpers
    [get_total_order_discount_excluding_shipping] and [base_order_total]
    and the tax helpers are not among the sources.  In this instance every
    currency has two decimal places, a [Money] is rounded half-up and a
    [Decimal] half-even, the tax rate of every class is the default rate,
    and the two order helpers return the given amounts. *)
Definition example_tax_env (total_discount base_total : Q) : TaxEnv :=
  {| quantize_decimal := fun q _ => round_half_even 2 q;
     quantize_money := fun q _ => round_half_up 2 q;
     get_total_order_discount_excluding_shipping := fun _ => total_discount;
     base_order_total := fun _ _ => base_total;
     get_tax_rate_for_tax_class := fun _ default_tax_rate _ => default_tax_rate;
     calculate_flat_rate_tax := flat_rate_tax;
     normalize_tax_rate_for_db := fun rate => (rate / 100)%Q |}.

(** Modelled from the spec: [validate_price_precision] and the Django
    setting are not among the sources.  Here a price is valid when it has
    at most two decimal places, and a promotion may hold 100 rules. *)
Definition example_validator_env : ValidatorEnv :=
  {| validate_price_precision :=
       fun value _ => Qeq_bool (round_half_up 2 value) value;
     CHECKOUT_AND_ORDER_RULES_LIMIT := 100 |}.

Definition zero_taxed : TaxedMoney := mkTaxedMoney 0 0.

Definition example_variant : ProductVariant :=
  mkProductVariant
    (Some (mkProduct None None (Some (mkTaxClass 1)))).

Definition example_line (price : Q) (qty : Z) : OrderLine :=
  {| variant := Some example_variant;
     base_unit_price := price;
     undiscounted_base_unit_price := price;
     quantity := qty;
     unit_price := zero_taxed;
     undiscounted_unit_price := zero_taxed;
     total_price := mkTaxedMoney (price * inject_Z qty) (price * inject_Z qty);
     undiscounted_total_price :=
       mkTaxedMoney (price * inject_Z qty) (price * inject_Z qty);
     tax_rate := 0 |}.

Definition variantless_line : OrderLine :=
  {| variant := None;
     base_unit_price := 4;
     undiscounted_base_unit_price := 4;
     quantity := 1;
     unit_price := mkTaxedMoney 4 4;
     undiscounted_unit_price := mkTaxedMoney 4 4;
     total_price := mkTaxedMoney 4 4;
     undiscounted_total_price := mkTaxedMoney 4 4;
     tax_rate := 0 |}.

Definition example_order (manual : list Q) : Order :=
  {| currency := "USD";
     base_shipping_price := 5;
     shipping_price := mkTaxedMoney 5 5;
     discounts := map (mkOrderDiscount MANUAL) manual |}.

Definition empty_input : CleanedInput :=
  {| catalogue_predicate := None;
     checkout_and_order_predicate := None;
     reward_type := None;
     reward_value := None;
     reward_value_type := None;
     channels := None;
     add_channels := None;
     remove_channels := None;
     promotion := None |}.

Definition empty_dict_input : CleanedInput :=
  {| catalogue_predicate := Some (PDict []);
     checkout_and_order_predicate := None;
     reward_type := None;
     reward_value := None;
     reward_value_type := None;
     channels := None;
     add_channels := None;
     remove_channels := None;
     promotion := None |}.

Definition empty_and_price_input : CleanedInput :=
  {| catalogue_predicate := Some (PDict []);
     checkout_and_order_predicate :=
       Some (PDict [("total_price", PDict [("eq", PInt 10)])]);
     reward_type := Some (Some SUBTOTAL_DISCOUNT);
     reward_value := Some (Some 10%Q);
     reward_value_type := Some (Some PERCENTAGE);
     channels := Some (Some [mkChannel 1 "USD"]);
     add_channels := None;
     remove_channels := None;
     promotion := None |}.

Definition price_rule_input : CleanedInput :=
  {| catalogue_predicate := None;
     checkout_and_order_predicate :=
       Some (PDict [("total_price", PDict [("eq", PInt 10)])]);
     reward_type := Some (Some SUBTOTAL_DISCOUNT);
     reward_value := None;
     reward_value_type := None;
     channels := None;
     add_channels := None;
     remove_channels := None;
     promotion := None |}.

Definition zero_reward_input : CleanedInput :=
  {| catalogue_predicate :=
       Some (PDict [("product", PList [PStr "UHJvZHVjdDox"])]);
     checkout_and_order_predicate := None;
     reward_type := None;
     reward_value := Some (Some 0%Q);
     reward_value_type := Some (Some FIXED);
     channels := None;
     add_channels := None;
     remove_channels := None;
     promotion := None |}.

Definition channel_usd_1 : Channel := mkChannel 1 "USD".
Definition channel_usd_2 : Channel := mkChannel 2 "USD".
Definition channel_pln : Channel := mkChannel 3 "PLN".

Definition two_currency_fixed_input : CleanedInput :=
  {| catalogue_predicate := None;
     checkout_and_order_predicate :=
       Some (PDict [("total_price", PDict [("eq", PInt 10)])]);
     reward_type := Some (Some SUBTOTAL_DISCOUNT);
     reward_value := Some (Some 5%Q);
     reward_value_type := Some (Some FIXED);
     channels := Some (Some [channel_usd_1; channel_pln]);
     add_channels := None;
     remove_channels := None;
     promotion := None |}.

Definition usd_pln_rule : PromotionRule :=
  {| rule_catalogue_predicate :=
       PDict [("product", PList [PStr "UHJvZHVjdDox"])];
     rule_checkout_and_order_predicate := PDict [];
     rule_reward_type := None;
     rule_reward_value := Some 5%Q;
     rule_reward_value_type := Some PERCENTAGE;
     rule_channels := [channel_usd_1; channel_pln] |}.

Definition remove_pln_input : CleanedInput :=
  {| catalogue_predicate := None;
     checkout_and_order_predicate := None;
     reward_type := None;
     reward_value := None;
     reward_value_type := None;
     channels := None;
     add_channels := Some (Some [channel_usd_2]);
     remove_channels := Some (Some [channel_pln]);
     promotion := None |}.

Definition gift_rule : PromotionRule :=
  {| rule_catalogue_predicate := PDict [];
     rule_checkout_and_order_predicate :=
       PDict [("baseTotalPrice", PDict [("gte", PInt 10)])];
     rule_reward_type := Some GIFT;
     rule_reward_value := None;
     rule_reward_value_type := None;
     rule_channels := [channel_usd_1] |}.

Definition full_promotion_input : CleanedInput :=
  {| catalogue_predicate := None;
     checkout_and_order_predicate :=
       Some (PDict [("base_total_price", PDict [("gte", PInt 10)])]);
     reward_type := Some (Some SUBTOTAL_DISCOUNT);
     reward_value := Some (Some 5%Q);
     reward_value_type := Some (Some FIXED);
     channels := Some (Some [channel_usd_1]);
     add_channels := None;
     remove_channels := None;
     promotion := Some (Some (mkPromotion 100)) |}.

Definition two_usd_channels_rule : PromotionRule :=
  {| rule_catalogue_predicate :=
       PDict [("product", PList [PStr "UHJvZHVjdDox"])];
     rule_checkout_and_order_predicate := PDict [];
     rule_reward_type := None;
     rule_reward_value := Some 5%Q;
     rule_reward_value_type := Some FIXED;
     rule_channels := [channel_usd_1; channel_usd_2] |}.

Definition remove_usd_1_input : CleanedInput :=
  {| catalogue_predicate := None;
     checkout_and_order_predicate := None;
     reward_type := None;
     reward_value := None;
     reward_value_type := Some (Some FIXED);
     channels := None;
     add_channels := None;
     remove_channels := Some (Some [channel_usd_1]);
     promotion := None |}.

Definition both_predicates_rule : PromotionRule :=
  {| rule_catalogue_predicate := PDict [("product", PList [PStr "UHJvZHVjdDox"])];
     rule_checkout_and_order_predicate :=
       PDict [("total_price", PDict [("eq", PInt 10)])];
     rule_reward_type := None;
     rule_reward_value := None;
     rule_reward_value_type := None;
     rule_channels := [channel_usd_1] |}.


(** ** Shapes of predicate trees *)

(** No dict of the tree, at any depth that [clean_predicate] reaches,
    holds an operator beside another key. *)
Fixpoint no_mixed_operators (v : pyval) : bool :=
  match v with
  | PList l => forallb no_mixed_operators l
  | PDict d =>
      negb (_contains_operator d && (1 <? length d)%nat)
      && forallb (fun kv => no_mixed_operators (snd kv)) d
  | _ => true
  end.

(** The keys of every dict of the tree are pairwise different and free of
    underscores. *)
Fixpoint normalized (v : pyval) : bool :=
  match v with
  | PList l => forallb normalized l
  | PDict d =>
      forallb (fun kv => negb (str_has_char "_"%char (fst kv))
                         && normalized (snd kv)) d
      && bool_decide (NoDup (dict_keys d))
  | _ => true
  end.

(** [key] is a key of some dict of the tree. *)
Fixpoint has_key (key : string) (v : pyval) : bool :=
  match v with
  | PList l => existsb (has_key key) l
  | PDict d =>
      existsb (fun kv => String.eqb key (fst kv) || has_key key (snd kv)) d
  | _ => false
  end.

(** ** Growth of the error map *)

(** Every list of [errors] is the beginning of the list of the same field
    in [errors']. *)
Definition errors_grow (errors errors' : Errors) : Prop :=
  ∀ field,
    default [] (errors !! field) `prefix_of` default [] (errors' !! field).

(** Some field of the map holds an error. *)
Definition has_error (errors : Errors) : Prop :=
  ∃ field error rest, errors !! field = Some (error :: rest).

(** * Properties *)

(** ** Results *)

Lemma bind_ok {A B} (r : result A) (k : A → result B) (b : B) :
  bind r k = Ok b → ∃ a, r = Ok a ∧ k a = Ok b.
Proof. destruct r as [a|e]; simpl; [eauto | discriminate]. Qed.

Lemma forallb_Forall_true {A} (f : A → bool) (l : list A) :
  forallb f l = true → Forall (fun x => f x = true) l.
Proof.
  induction l as [|x r IH]; simpl; [constructor |].
  intros [Hx Hr]%andb_true_iff. constructor; [done | by apply IH].
Qed.

(** ** Dicts under construction *)

Lemma dict_has_spec key d : dict_has key d = true ↔ key ∈ dict_keys d.
Proof.
  unfold dict_has, dict_keys. rewrite existsb_exists, list_elem_of_fmap.
  split.
  - intros [kv [Hin Heq]]. apply String.eqb_eq in Heq.
    exists kv. split; [done | by apply list_elem_of_In].
  - intros [kv [-> Hin]]. exists kv. split; [by apply list_elem_of_In |].
    apply String.eqb_refl.
Qed.

Lemma dict_set_keys key value d :
  dict_keys (dict_set key value d) =
  if dict_has key d then dict_keys d else (dict_keys d ++ [key])%list.
Proof.
  induction d as [|[k v] r IH]; simpl; [done |].
  destruct (String.eqb key k) eqn:E; simpl; [done |].
  rewrite IH. unfold dict_has. by destruct (existsb _ r).
Qed.

Lemma dict_set_NoDup key value d :
  NoDup (dict_keys d) → NoDup (dict_keys (dict_set key value d)).
Proof.
  intros Hnd. rewrite dict_set_keys.
  destruct (dict_has key d) eqn:E; [done |].
  apply NoDup_app. split_and!; [done | | apply NoDup_singleton].
  intros k Hk Hk'. apply list_elem_of_singleton in Hk'. subst k.
  apply dict_has_spec in Hk. congruence.
Qed.

Lemma dict_set_length key value d :
  (length (dict_set key value d) ≤ S (length d))%nat.
Proof.
  induction d as [|[k v] r IH]; simpl; [lia |].
  destruct (String.eqb key k); simpl; lia.
Qed.

Lemma dict_set_fresh key value d :
  dict_has key d = false → dict_set key value d = (d ++ [(key, value)])%list.
Proof.
  induction d as [|[k v] r IH]; simpl; [done |].
  destruct (String.eqb key k) eqn:E; simpl; [discriminate |].
  intros H. by rewrite IH.
Qed.

Lemma dict_set_Forall (P : string * pyval → Prop) key value d :
  P (key, value) → Forall P d → Forall P (dict_set key value d).
Proof.
  intros Hnew. induction 1 as [|[k v] r Hkv Hr IH]; simpl.
  - by constructor.
  - destruct (String.eqb key k) eqn:E.
    + apply String.eqb_eq in E. subst k. by constructor.
    + by constructor.
Qed.

(** A dict whose keys are pairwise different is rebuilt as it is. *)
Lemma rebuild_dict d acc :
  NoDup (dict_keys (acc ++ d)) →
  fold_left (fun a kv => dict_set (fst kv) (snd kv) a) d acc = (acc ++ d)%list.
Proof.
  revert acc. induction d as [|[k v] r IH]; intros acc Hnd; simpl.
  - by rewrite app_nil_r.
  - assert (Hfresh : dict_has k acc = false).
    { destruct (dict_has k acc) eqn:E; [|done].
      apply dict_has_spec in E. unfold dict_keys in Hnd.
      rewrite fmap_app in Hnd. apply NoDup_app in Hnd as (_ & Hd & _).
      exfalso. apply (Hd k E). simpl. left. }
    rewrite dict_set_fresh by done.
    rewrite IH; rewrite <- app_assoc; done.
Qed.

(** ** The comprehensions of [clean_predicate] *)

Section Comprehensions.
Variable rec : pyval → result pyval.

Local Abbreviation clean_item := (clean_item rec).

(** What is known of every entry of a dict that the comprehension has
    built. *)
Variable P : string * pyval → Prop.

Lemma clean_items_Forall d acc out :
  (∀ k v v', (k, v) ∈ d → clean_item v = Ok v' → P (to_camel_case k, v')) →
  Forall P acc →
  clean_items rec d acc = Ok out →
  Forall P out.
Proof.
  revert acc. induction d as [|[k v] r IH]; intros acc Hd Hacc; simpl.
  - by intros [= <-].
  - destruct (clean_item v) as [v'|e] eqn:E; [|done].
    intros Hout. eapply IH; [| |exact Hout].
    + intros k0 v0 v0' Hin. apply Hd. by right.
    + apply dict_set_Forall; [|done]. eapply Hd; [left | done].
Qed.

Lemma clean_items_NoDup d acc out :
  NoDup (dict_keys acc) → clean_items rec d acc = Ok out →
  NoDup (dict_keys out).
Proof.
  revert acc. induction d as [|[k v] r IH]; intros acc Hacc; simpl.
  - by intros [= <-].
  - destruct (clean_item v) as [v'|e]; [|done].
    apply IH. by apply dict_set_NoDup.
Qed.

Lemma clean_items_length d acc out :
  clean_items rec d acc = Ok out →
  (length out ≤ length acc + length d)%nat.
Proof.
  revert acc. induction d as [|[k v] r IH]; intros acc; simpl.
  - intros [= <-]. lia.
  - destruct (clean_item v) as [v'|e]; [|done].
    intros H. apply IH in H. pose proof (dict_set_length (to_camel_case k) v' acc).
    lia.
Qed.

(** Every key of the built dict is the new name of a key of the source
    or was in the dict before. *)
Lemma clean_items_keys d acc out key :
  clean_items rec d acc = Ok out → key ∈ dict_keys out →
  key ∈ dict_keys acc ∨ ∃ k, k ∈ dict_keys d ∧ key = to_camel_case k.
Proof.
  revert acc. induction d as [|[k v] r IH]; intros acc; simpl.
  - intros [= <-]. by left.
  - destruct (clean_item v) as [v'|e]; [|done].
    intros H Hk. destruct (IH _ H Hk) as [Hacc|[k0 [Hk0 ->]]].
    + rewrite dict_set_keys in Hacc.
      destruct (dict_has (to_camel_case k) acc); [by left |].
      apply elem_of_app in Hacc as [Hacc|Hnew]; [by left |].
      apply list_elem_of_singleton in Hnew. right. exists k.
      split; [left | done].
    + right. exists k0. split; [by right | done].
Qed.

(** Entries that are clean already and carry their final names are
    stored as they are. *)
Lemma clean_items_fixed d acc :
  Forall (fun kv => to_camel_case (fst kv) = fst kv
                    ∧ clean_item (snd kv) = Ok (snd kv)) d →
  clean_items rec d acc =
  Ok (fold_left (fun a kv => dict_set (fst kv) (snd kv) a) d acc).
Proof.
  intros Hd. revert acc. induction Hd as [|[k v] r [Hk Hv] Hr IH];
    intros acc; simpl; [done |].
  simpl in Hk, Hv. rewrite Hv, Hk. apply IH.
Qed.

Lemma clean_list_fixed l :
  Forall (fun v => clean_item v = Ok v) l → clean_list rec l = Ok l.
Proof.
  induction 1 as [|v r Hv Hr IH]; simpl; [done |].
  by rewrite Hv, IH.
Qed.

Lemma clean_list_Forall2 l out :
  clean_list rec l = Ok out →
  Forall2 (fun v v' => clean_item v = Ok v') l out.
Proof.
  revert out. induction l as [|v r IH]; intros out; simpl.
  - intros [= <-]. constructor.
  - destruct (clean_item v) as [v'|e] eqn:E; [|done].
    destruct (clean_list rec r) as [vs|e]; [|done].
    intros [= <-]. constructor; [done | by apply IH].
Qed.
End Comprehensions.

(** ** [clean_predicate] on its own results *)

Lemma clean_predicate_container p index q :
  clean_predicate p index = Ok q → is_dict_or_list q = true.
Proof.
  destruct p; simpl; try discriminate.
  - destruct (clean_list _ l); [|done]. by intros [= <-].
  - destruct (_ && _); [done |]. destruct (clean_items _ d []); [|done].
    by intros [= <-].
Qed.

Lemma contains_operator_spec d :
  _contains_operator d = true ↔ ∃ key, is_operator key = true ∧ key ∈ dict_keys d.
Proof.
  unfold _contains_operator, is_operator. simpl. rewrite orb_false_r.
  split.
  - intros [H|H]%orb_true_iff; apply dict_has_spec in H.
    + exists "AND". by rewrite String.eqb_refl.
    + exists "OR". split; [done | done].
  - intros [key [[H|H]%orb_true_iff Hin]]; apply String.eqb_eq in H; subst key;
      apply dict_has_spec in Hin; rewrite Hin; [done | apply orb_true_r].
Qed.

(** One more pass over a cleaned element changes nothing, once this is
    known of [clean_predicate] on the element itself. *)
Lemma clean_item_again index v v' :
  (∀ q, clean_predicate v index = Ok q → clean_predicate q index = Ok q) →
  clean_item (fun x => clean_predicate x index) v = Ok v' →
  clean_item (fun x => clean_predicate x index) v' = Ok v'.
Proof.
  unfold clean_item. intros IH.
  destruct (is_dict_or_list v) eqn:E.
  - intros H. rewrite (clean_predicate_container _ _ _ H). by apply IH.
  - intros [= <-]. by rewrite E.
Qed.

Lemma clean_predicate_again index p :
  stable_keys p = true →
  ∀ q, clean_predicate p index = Ok q → clean_predicate q index = Ok q.
Proof.
  induction p as [| | | |l IH|d IH] using pyval_ind; try done.
  - (* list *)
    simpl. intros Hst q.
    destruct (clean_list _ l) as [vs|e] eqn:E; [|done]. intros [= <-].
    simpl. rewrite clean_list_fixed; [done |].
    apply clean_list_Forall2 in E. apply forallb_Forall_true in Hst.
    induction E as [|v v' r r' Hv Hr IHr]; [constructor |].
    apply Forall_cons in IH as [IHv IHr']. apply Forall_cons in Hst as [Hv' Hr'].
    constructor; [|by apply IHr].
    eapply clean_item_again; [|exact Hv]. by apply IHv.
  - (* dict *)
    simpl. intros Hst q.
    destruct (_contains_operator d && (1 <? length d)%nat) eqn:Hop; [done |].
    destruct (clean_items _ d []) as [d'|e] eqn:E; [|done]. intros [= <-].
    apply forallb_Forall_true in Hst.
    assert (Hentries :
      Forall (fun kv => to_camel_case (fst kv) = fst kv
                        ∧ clean_item (fun x => clean_predicate x index) (snd kv)
                          = Ok (snd kv)) d').
    { eapply clean_items_Forall; [| |exact E]; [|constructor].
      intros k v v' Hin Hv. simpl.
      rewrite Forall_forall in IH, Hst.
      specialize (IH _ Hin). specialize (Hst _ Hin). simpl in IH, Hst.
      apply andb_true_iff in Hst as [Hk Hv'].
      split.
      - unfold stable_key in Hk. apply andb_true_iff in Hk as [Hk _].
        by apply String.eqb_eq in Hk.
      - eapply clean_item_again; [|exact Hv]. by apply IH. }
    assert (Hcheck : _contains_operator d' && (1 <? length d')%nat = false).
    { destruct (_contains_operator d') eqn:Hop'; [|done]. simpl.
      apply contains_operator_spec in Hop' as [key [Hkey Hin]].
      destruct (clean_items_keys _ _ _ _ _ E Hin) as [Hnil|[k [Hk ->]]].
      { by apply elem_of_nil in Hnil. }
      assert (Hopk : is_operator k = true).
      { apply list_elem_of_fmap in Hk as [[k0 v0] [-> Hkv]].
        rewrite Forall_forall in Hst. specialize (Hst _ Hkv). simpl in Hst.
        apply andb_true_iff in Hst as [Hs _].
        unfold stable_key in Hs. apply andb_true_iff in Hs as [_ Hs].
        simpl in Hkey. rewrite Hkey in Hs. exact Hs. }
      assert (Hd : _contains_operator d = true).
      { apply contains_operator_spec. by exists k. }
      rewrite Hd in Hop. simpl in Hop.
      apply clean_items_length in E. simpl in E.
      apply Nat.ltb_ge in Hop. apply Nat.ltb_ge. lia. }
    simpl. rewrite Hcheck.
    rewrite (clean_items_fixed _ d' [] Hentries).
    rewrite rebuild_dict; [done |]. simpl.
    eapply clean_items_NoDup; [|exact E]. constructor.
Qed.

(** C8, as amended.  On a predicate tree whose keys are all stable (a
    second renaming of a key changes nothing more, and no plain key is
    renamed to [AND] or [OR]), [clean_predicate] is idempotent: when it
    succeeds, cleaning its result succeeds again and returns the result
    unchanged. *)
Theorem clean_predicate_idempotent_on_stable_keys p index q :
  stable_keys p = true →
  clean_predicate p index = Ok q →
  clean_predicate q index = Ok q.
Proof. intros Hst Hq. by apply (clean_predicate_again index p). Qed.

Lemma clean_predicate_idempotent_on_stable_keys_witness :
  let p :=
    PDict [("AND",
            PList [PDict [("subtotal_price",
                           PDict [("range", PDict [("gte", PInt 100)])])];
                   PDict [("base_total_price",
                           PDict [("eq", PStr "10")])]])] in
  let q :=
    PDict [("AND",
            PList [PDict [("subtotalPrice",
                           PDict [("range", PDict [("gte", PInt 100)])])];
                   PDict [("baseTotalPrice",
                           PDict [("eq", PStr "10")])]])] in
  stable_keys p = true
  ∧ clean_predicate p (Some 0) = Ok q
  ∧ clean_predicate q (Some 0) = Ok q.
Proof.
  intros p q. split; [reflexivity |]. split; [reflexivity |].
  apply (clean_predicate_idempotent_on_stable_keys p (Some 0) q);
    reflexivity.
Defined.

(** C8 fails as it is stated.  The key [AN_d] is no operator, so the
    first dict below is cleaned, but the key is renamed to [AND], and the
    result, where [AND] stands beside another key, is rejected by a second
    pass.  The key [a__b] is renamed to [a_B], which a second pass renames
    again, to [aB]. *)
Lemma clean_predicate_not_idempotent :
  (clean_predicate (PDict [("AN_d", PList []); ("name", PStr "x")]) None
   = Ok (PDict [("AND", PList []); ("name", PStr "x")])
   ∧ clean_predicate (PDict [("AND", PList []); ("name", PStr "x")]) None
     = Raise (ExcValidation (mixed_operators_error None)))
  ∧ (clean_predicate (PDict [("a__b", PInt 1)]) None
     = Ok (PDict [("a_B", PInt 1)])
     ∧ clean_predicate (PDict [("a_B", PInt 1)]) None
       = Ok (PDict [("aB", PInt 1)])).
Proof. repeat split. Qed.

(** ** The error map *)

Lemma errors_append_lookup field error (errors : Errors) :
  errors_append field error errors !! field
  = Some (default [] (errors !! field) ++ [error])%list.
Proof. unfold errors_append. apply lookup_insert_eq. Qed.

Lemma errors_append_lookup_ne field field' error (errors : Errors) :
  field ≠ field' →
  errors_append field error errors !! field' = errors !! field'.
Proof. intros H. unfold errors_append. by apply lookup_insert_ne. Qed.

(** ** Stage 1 of [clean_promotion_rule] *)

Lemma truthy_not_none v : truthy v = true → is_none v = false.
Proof. by destruct v. Qed.

Lemma clean_promotion_rule_invalid env ci errors index ptype instance errors' :
  _clean_predicates ci (effective_catalogue_predicate ci instance)
    (effective_checkout_and_order_predicate ci instance) errors index ptype
    instance = (true, errors') →
  clean_promotion_rule env ci errors index ptype instance = Ok (ci, errors').
Proof.
  unfold clean_promotion_rule, effective_catalogue_predicate,
    effective_checkout_and_order_predicate.
  destruct instance as [inst|]; intros ->; reflexivity.
Qed.

(** C2, as amended.  When both effective predicates are [None], a REQUIRED
    error is appended to both predicate fields.  When both are non-empty,
    a MIXED_PREDICATES error is appended to both predicate fields on
    create and, on update, to those of the two whose key is in the input.
    When the one non-empty predicate is of the other kind than the
    promotion's, one MIXED_PROMOTION_PREDICATES error is appended to its
    field.  In each of these cases the call returns [cleaned_input]
    unchanged and no other error: stages 2 to 4 do not run. *)
Theorem clean_promotion_rule_stops_on_invalid_predicates
  env ci errors index ptype instance :
  let cat := effective_catalogue_predicate ci instance in
  let chk := effective_checkout_and_order_predicate ci instance in
  let run := clean_promotion_rule env ci errors index ptype instance in
  (cat = PNone → chk = PNone →
   run = Ok (ci,
             errors_append "checkout_and_order_predicate"
               (predicates_required_error index)
               (errors_append "catalogue_predicate"
                  (predicates_required_error index) errors)))
  ∧ (truthy cat = true → truthy chk = true →
     run = Ok (ci,
               errors_append_all
                 (match instance with
                  | None => ["catalogue_predicate";
                             "checkout_and_order_predicate"]
                  | Some _ =>
                      List.filter (fun field => key_in field ci)
                        ["catalogue_predicate";
                         "checkout_and_order_predicate"]
                  end)
                 (mixed_predicates_error index) errors))
  ∧ (truthy cat = true → truthy chk = false →
     ptype = Some CHECKOUT_AND_ORDER →
     run = Ok (ci,
               errors_append "catalogue_predicate"
                 (mixed_promotion_checkout_error index) errors))
  ∧ (truthy cat = false → truthy chk = true →
     ptype = Some CATALOGUE →
     run = Ok (ci,
               errors_append "checkout_and_order_predicate"
                 (mixed_promotion_catalogue_error index) errors)).
Proof.
  intros cat chk run. subst run. repeat split.
  - intros Hcat Hchk. apply clean_promotion_rule_invalid.
    fold cat chk. rewrite Hcat, Hchk. reflexivity.
  - intros Hcat Hchk. apply clean_promotion_rule_invalid.
    fold cat chk. unfold _clean_predicates.
    rewrite (truthy_not_none _ Hcat), Hcat, Hchk. simpl.
    by destruct instance.
  - intros Hcat Hchk ->. apply clean_promotion_rule_invalid.
    fold cat chk. unfold _clean_predicates.
    rewrite (truthy_not_none _ Hcat), Hcat, Hchk. reflexivity.
  - intros Hcat Hchk ->. apply clean_promotion_rule_invalid.
    fold cat chk. unfold _clean_predicates.
    rewrite (truthy_not_none _ Hchk), Hcat, Hchk, andb_false_r. reflexivity.
Qed.

Lemma clean_promotion_rule_stops_on_invalid_predicates_witness :
  clean_promotion_rule example_validator_env empty_input ∅ None None None
  = Ok (empty_input,
        errors_append "checkout_and_order_predicate"
          (predicates_required_error None)
          (errors_append "catalogue_predicate"
             (predicates_required_error None) ∅)).
Proof.
  apply (proj1 (clean_promotion_rule_stops_on_invalid_predicates
                  example_validator_env empty_input ∅ None None None));
    reflexivity.
Defined.

(** C2 fails as it is stated.  On the update of a rule that holds both
    predicates, with an input that names neither, both effective
    predicates are present and the later stages are skipped, yet no
    MIXED_PREDICATES error is recorded: the error map stays empty.  On a
    create whose only predicate is the empty dict, no predicate is usable,
    yet no REQUIRED error is recorded.  And on a create with the empty
    dict as catalogue predicate beside a checkout/order predicate, neither
    predicate is [None], yet no MIXED_PREDICATES error is recorded and the
    later stages run: the checkout/order predicate is normalized. *)
Lemma predicate_errors_not_recorded :
  (truthy (effective_catalogue_predicate empty_input
             (Some both_predicates_rule)) = true
   ∧ truthy (effective_checkout_and_order_predicate empty_input
               (Some both_predicates_rule)) = true
   ∧ clean_promotion_rule example_validator_env empty_input ∅ None
       (Some CATALOGUE) (Some both_predicates_rule)
     = Ok (empty_input, ∅))
  ∧ (truthy (effective_catalogue_predicate empty_dict_input None) = false
     ∧ truthy (effective_checkout_and_order_predicate empty_dict_input None)
       = false
     ∧ clean_promotion_rule example_validator_env empty_dict_input ∅ None
         None None
       = Ok (empty_dict_input, ∅))
  ∧ (is_none (effective_catalogue_predicate empty_and_price_input None)
     = false
     ∧ is_none (effective_checkout_and_order_predicate empty_and_price_input
                  None) = false
     ∧ clean_promotion_rule example_validator_env empty_and_price_input ∅
         None None None
       = Ok (set_checkout_and_order_predicate
               (PDict [("totalPrice", PDict [("eq", PInt 10)])])
               empty_and_price_input, ∅)).
Proof. repeat split. Qed.

(** ** Stages 3 and 4 *)

Lemma effective_reward_type_eq ci instance :
  match instance with
  | Some inst =>
      if negb (key_in "reward_type" ci)
      then option_or (get (reward_type ci)) (rule_reward_type inst)
      else get (reward_type ci)
  | None => get (reward_type ci)
  end = effective_reward_type ci instance.
Proof.
  unfold effective_reward_type. destruct instance; [|done].
  by destruct (key_in "reward_type" ci).
Qed.

(** C5.  With a non-empty checkout/order predicate and a reward type, a
    predicate whose text names a subtotal or total price field, checked
    against more than one channel currency, makes the stage append one
    MULTIPLE_CURRENCIES_NOT_ALLOWED error and nothing else: to [channels]
    on create; on update to [add_channels] when that key is in the input
    and to [checkout_and_order_predicate] otherwise.  [cleaned_input] is
    returned as it was, so the predicate is not normalized, and no
    RULES_NUMBER_LIMIT error can follow. *)
Theorem price_predicate_with_several_currencies
  env ci chk (currencies : gset string) errors index instance :
  truthy chk = true →
  is_some (effective_reward_type ci instance) = true →
  price_based chk = true →
  (1 < size currencies)%nat →
  _clean_checkout_and_order_predicate env ci chk currencies errors index
    instance
  = Ok (ci,
        errors_append
          (match instance with
           | None => "channels"
           | Some _ =>
               if is_some (add_channels ci) then "add_channels"
               else "checkout_and_order_predicate"
           end)
          (price_currencies_error index) errors).
Proof.
  intros Hchk Hrt Hprice Hsize. unfold _clean_checkout_and_order_predicate.
  rewrite Hchk. simpl negb at 1. cbv iota.
  rewrite effective_reward_type_eq, Hrt, Hprice.
  apply Nat.ltb_lt in Hsize. rewrite Hsize. simpl.
  by destruct instance.
Qed.

Lemma price_predicate_with_several_currencies_witness :
  _clean_checkout_and_order_predicate example_validator_env price_rule_input
    (PDict [("total_price", PDict [("eq", PInt 10)])])
    {["USD"; "PLN"]} ∅ None None
  = Ok (price_rule_input,
        errors_append "channels" (price_currencies_error None) ∅).
Proof.
  apply (price_predicate_with_several_currencies example_validator_env
           price_rule_input
           (PDict [("total_price", PDict [("eq", PInt 10)])])
           {["USD"; "PLN"]} ∅ None None).
  - reflexivity.
  - reflexivity.
  - reflexivity.
  - vm_compute. lia.
Defined.

(** C10.  A reward value equal to zero, with a reward value type present,
    leaves the error map as it was: REQUIRED is not raised, since the
    value is not [None], and neither the FIXED nor the PERCENTAGE checks
    run, since zero is falsy.  This holds whichever predicates are
    effective. *)
Theorem zero_reward_value_passes
  env ci cat chk (currencies : gset string) errors index instance v t :
  effective_reward_value ci instance = Some v →
  (v == 0)%Q →
  effective_reward_value_type ci instance = Some t →
  _clean_reward env ci cat chk currencies errors index instance = errors.
Proof.
  unfold effective_reward_value, effective_reward_value_type, _clean_reward.
  intros Hv Hzero Ht.
  destruct (is_some instance && negb (key_in "reward_value" ci)
            && negb (key_in "reward_value_type" ci)); [done |].
  assert (Hf : decimal_truthy (Some v) = false).
  { simpl. apply negb_false_iff. by apply Qeq_bool_iff. }
  destruct instance as [inst|]; rewrite Hv, Ht; simpl is_some; simpl negb;
    simpl andb; cbv iota; by rewrite Hf.
Qed.

Lemma zero_reward_value_passes_witness :
  _clean_reward example_validator_env zero_reward_input
    (PDict [("product", PList [PStr "UHJvZHVjdDox"])]) PNone
    {["USD"; "PLN"]} ∅ None None
  = ∅.
Proof.
  apply (zero_reward_value_passes example_validator_env zero_reward_input
           (PDict [("product", PList [PStr "UHJvZHVjdDox"])]) PNone
           {["USD"; "PLN"]} ∅ None None 0%Q FIXED);
    reflexivity.
Defined.

(** ** [_get_channel_currencies] against the specification *)

(** C3 does not hold of the code.  A rule is in two channels of the same
    currency and one of them is removed: the remaining channel still has
    the currency, so the set of the specification is [{USD}], but the code
    subtracts the currencies of the removed channels and returns the empty
    set.  The FIXED reward of the same input is then refused for missing
    channels. *)
Theorem removed_channel_takes_shared_currency :
  _get_channel_currencies remove_usd_1_input (Some two_usd_channels_rule)
  = Ok ∅
  ∧ spec_channel_currencies remove_usd_1_input two_usd_channels_rule
    = {["USD"]}
  ∧ clean_promotion_rule example_validator_env remove_usd_1_input ∅ None
      (Some CATALOGUE) (Some two_usd_channels_rule)
    = Ok (remove_usd_1_input,
          errors_append "reward_value_type" (missing_channels_error None) ∅).
Proof. repeat split. Qed.

(** ** Decimal arithmetic *)

Lemma fold_left_Qplus_shift (l : list Q) (a : Q) :
  (fold_left Qplus l a == a + decimal_sum l)%Q.
Proof.
  unfold decimal_sum. revert a. induction l as [|x r IH]; intros a; simpl.
  - ring.
  - rewrite IH, (IH (0 + x)%Q). ring.
Qed.


Lemma inject_Z_zero (z : Z) : (inject_Z z == 0)%Q ↔ z = 0.
Proof. unfold Qeq. simpl. lia. Qed.

Lemma decimal_div_ok a b r :
  decimal_div a b = Ok r → ¬ (b == 0)%Q ∧ r = (a / b)%Q.
Proof.
  unfold decimal_div. destruct (Qeq_bool b 0) eqn:E; [done |].
  intros [= <-]. split; [by apply Qeq_bool_neq | done].
Qed.

Lemma decimal_div_nonzero a b :
  ¬ (b == 0)%Q → decimal_div a b = Ok (a / b)%Q.
Proof.
  intros Hb. unfold decimal_div. destruct (Qeq_bool b 0) eqn:E; [|done].
  by apply Qeq_bool_iff in E.
Qed.



Lemma Qlt_bool_iff a b : Qlt_bool a b = true ↔ (a < b)%Q.
Proof.
  unfold Qlt_bool. rewrite negb_true_iff. split.
  - intros H. apply Qnot_le_lt. intros Hle. apply Qle_bool_iff in Hle.
    congruence.
  - intros H. destruct (Qle_bool b a) eqn:E; [|done].
    apply Qle_bool_iff in E. exfalso. by apply (Qlt_not_le a b).
Qed.

Lemma Qlt_bool_false a b : Qlt_bool a b = false ↔ (b <= a)%Q.
Proof.
  unfold Qlt_bool. rewrite negb_false_iff. apply Qle_bool_iff.
Qed.

Lemma money_max_lower a b : (b <= money_max a b)%Q.
Proof.
  unfold money_max. destruct (Qlt_bool a b) eqn:E.
  - apply Qle_refl.
  - by apply Qlt_bool_false.
Qed.

(** ** One iteration of the discount loop *)

Lemma line_discount_ok env cur total ot tld line is_last d :
  line_discount env cur total ot tld line is_last = Ok d →
  (if is_last then discount_amount d = (total - tld)%Q
   else ¬ (ot == 0)%Q
        ∧ discount_amount d
          = quantize_decimal env (line_total_price line / ot * total)%Q cur)
  ∧ quantity line ≠ 0
  ∧ price_with_discounts d
    = money_max
        (quantize_money env
           ((line_total_price line - discount_amount d)
            / inject_Z (quantity line))%Q cur)
        (zero_money cur).
Proof.
  unfold line_discount. intros H.
  apply bind_ok in H as [share [Hshare H]].
  apply bind_ok in H as [unit [Hunit H]]. injection H as <-. simpl.
  apply decimal_div_ok in Hunit as [Hq ->].
  split; [|split; [by rewrite <- inject_Z_zero | done]].
  destruct is_last.
  - by injection Hshare as <-.
  - apply bind_ok in Hshare as [ratio [Hratio Hshare]].
    injection Hshare as <-. apply decimal_div_ok in Hratio as [Hot ->].
    done.
Qed.




(** ** The discount loop *)

Section DiscountLoop.
Variable env : TaxEnv.
Variables cur country_code : string.
Variable default_tax_rate : Q.
Variable prices_entered_with_tax : bool.
Variables total ot : Q.
(** The discount to distribute is not zero. *)
Hypothesis Htotal : ¬ (total == 0)%Q.

Local Abbreviation loop :=
  (lines_loop env cur country_code default_tax_rate
     prices_entered_with_tax total ot).

Local Abbreviation proportional_share line :=
  (quantize_decimal env (line_total_price line / ot * total)%Q cur).

Local Abbreviation clamped_unit_price line share :=
  (money_max
     (quantize_money env
        ((line_total_price line - share) / inject_Z (quantity line))%Q cur)
     (zero_money cur)).

Lemma total_truthy : negb (Qeq_bool total 0) = true.
Proof.
  apply negb_true_iff. destruct (Qeq_bool total 0) eqn:E; [|done].
  by apply Qeq_bool_iff in E.
Qed.

(** The step of the loop at a line with a variant. *)
Lemma loop_step line v rest tld done :
  variant line = Some v →
  loop (line :: rest) tld = Ok done →
  ∃ d done',
    line_discount env cur total ot tld line
      (match rest with [] => true | _ => false end) = Ok d
    ∧ loop rest (tld + discount_amount d)%Q = Ok done'
    ∧ done
      = (store_line_taxes env cur line (price_with_discounts d)
           (get_tax_rate_for_tax_class env (line_tax_class v)
              default_tax_rate country_code)
           prices_entered_with_tax, Some d) :: done'.
Proof.
  intros Hv. simpl. rewrite Hv, total_truthy. intros H.
  apply bind_ok in H as [d [Hd H]].
  apply bind_ok in H as [done' [Hrest H]]. injection H as <-.
  by exists d, done'.
Qed.

(** The step of the loop at a line without a variant. *)
Lemma loop_skip line rest tld done :
  variant line = None →
  loop (line :: rest) tld = Ok done →
  ∃ done', loop rest tld = Ok done' ∧ done = (line, None) :: done'.
Proof.
  intros Hv. simpl. rewrite Hv. intros H.
  apply bind_ok in H as [done' [Hrest H]]. injection H as <-.
  by exists done'.
Qed.

Lemma loop_length lines tld done :
  loop lines tld = Ok done → length done = length lines.
Proof.
  revert tld done. induction lines as [|line rest IH]; intros tld done.
  - by intros [= <-].
  - destruct (variant line) as [v|] eqn:Hv; intros H.
    + apply (loop_step _ v) in H as (d & done' & _ & Hrest & ->); [|done].
      simpl. f_equal. by eapply IH.
    + apply loop_skip in H as (done' & Hrest & ->); [|done].
      simpl. f_equal. by eapply IH.
Qed.

(** Every line that has a variant gets a share, and its discounted unit
    price is the rounded quotient, clamped at zero. *)
Lemma loop_entries lines tld done :
  loop lines tld = Ok done →
  Forall2
    (fun line entry =>
       (is_some (variant line) = true → is_some (snd entry) = true)
       ∧ ∀ d, snd entry = Some d →
              price_with_discounts d
              = clamped_unit_price line (discount_amount d))
    lines done.
Proof.
  revert tld done. induction lines as [|line rest IH]; intros tld done.
  - intros [= <-]. constructor.
  - destruct (variant line) as [v|] eqn:Hv; intros H.
    + apply (loop_step _ v) in H as (d & done' & Hd & Hrest & ->); [|done].
      constructor; [|by eapply IH]. simpl. split; [done |].
      intros d' [= <-]. by apply line_discount_ok in Hd as (_ & _ & Hp).
    + apply loop_skip in H as (done' & Hrest & ->); [|done].
      constructor; [|by eapply IH]. simpl. rewrite Hv. split; [done | done].
Qed.




End DiscountLoop.

(** ** [update_taxes_for_order_lines] *)

Lemma decimal_sum_cons (x : Q) (l : list Q) :
  (decimal_sum (x :: l) == x + decimal_sum l)%Q.
Proof.
  unfold decimal_sum at 1. simpl. rewrite fold_left_Qplus_shift. ring.
Qed.


Lemma clamp_then_round (quantize : Q → Q) (x : Q) :
  (quantize 0 == 0)%Q →
  (∀ a b, (a <= b)%Q → (quantize a <= quantize b)%Q) →
  (money_max (quantize x) 0 == quantize (money_max 0 x))%Q.
Proof.
  intros Hzero Hmono. unfold money_max.
  destruct (Qlt_bool 0 x) eqn:Hx.
  - apply Qlt_bool_iff in Hx.
    assert (H : (quantize 0 <= quantize x)%Q) by (apply Hmono; lra).
    destruct (Qlt_bool (quantize x) 0) eqn:E; [|reflexivity].
    apply Qlt_bool_iff in E. lra.
  - apply Qlt_bool_false in Hx.
    assert (H : (quantize x <= quantize 0)%Q) by by apply Hmono.
    destruct (Qlt_bool (quantize x) 0) eqn:E.
    + by rewrite Hzero.
    + apply Qlt_bool_false in E. lra.
Qed.


(** C6.  When a nonzero discount is distributed, a run that returns gives
    every line with a variant a discounted unit price, which is
    [(line_total - discount_share) / quantity] rounded to the currency
    precision and clamped at zero; it is never negative, whatever the
    discount.  For a rounding that is monotone and keeps zero this is
    [max(0, (line_total - discount_share) / quantity)], rounded. *)
Theorem discounted_unit_price_not_negative
  env order lines country_code default_tax_rate prices_entered_with_tax out :
  let cur := currency order in
  ¬ (get_total_order_discount_excluding_shipping env order == 0)%Q →
  update_taxes_trace env order lines country_code default_tax_rate
    prices_entered_with_tax = Ok out →
  Forall2
    (fun line entry =>
       (is_some (variant line) = true → is_some (snd entry) = true)
       ∧ ∀ d, snd entry = Some d →
              let unit :=
                ((line_total_price line - discount_amount d)
                 / inject_Z (quantity line))%Q in
              price_with_discounts d
              = money_max (quantize_money env unit cur) (zero_money cur)
              ∧ (0 <= price_with_discounts d)%Q
              ∧ ((quantize_money env 0 cur == 0)%Q →
                 (∀ a b, (a <= b)%Q →
                         (quantize_money env a cur
                          <= quantize_money env b cur)%Q) →
                 (price_with_discounts d
                  == quantize_money env (money_max (zero_money cur) unit)
                       cur)%Q))
    lines out.
Proof.
  intros cur Htotal Hrun. unfold update_taxes_trace in Hrun.
  eapply Forall2_impl;
    [exact (loop_entries env _ _ _ _ _ _ Htotal lines 0%Q out Hrun) |].
  intros line entry [Hsome Hprice]. split; [done |].
  intros d Hd unit. specialize (Hprice d Hd). fold cur unit in Hprice.
  split; [done |]. split.
  - rewrite Hprice. apply money_max_lower.
  - intros Hzero Hmono. rewrite Hprice. unfold zero_money.
    apply (clamp_then_round (fun q => quantize_money env q cur)); done.
Qed.



Lemma discounted_unit_price_not_negative_witness :
  let env := example_tax_env 50 25 in
  let lines := [example_line 10 1; example_line 10 1] in
  ∃ out,
    update_taxes_trace env (example_order []) lines "US" 0 false = Ok out
    ∧ map (fun entry => price_with_discounts <$> snd entry) out
      = [Some 0%Q; Some 0%Q]
    ∧ Forall2
        (fun line entry =>
           ∀ d, snd entry = Some d → (0 <= price_with_discounts d)%Q)
        lines out.
Proof.
  intros env lines. eexists. split; [vm_compute; reflexivity |].
  split; [reflexivity |].
  eapply Forall2_impl.
  - apply (discounted_unit_price_not_negative env (example_order []) lines
             "US" 0 false).
    + vm_compute. discriminate.
    + vm_compute. reflexivity.
  - intros line entry [_ H] d Hd. apply (H d Hd).
Defined.


(** ** [_calculate_order_total] *)

Lemma sum_line_totals_eq cur lines :
  sum_line_totals cur lines
  = (taxed_sum cur (map total_price lines),
     taxed_sum cur (map undiscounted_total_price lines)).
Proof.
  unfold sum_line_totals, taxed_sum.
  generalize (zero_taxed_money cur) at 1 3.
  generalize (zero_taxed_money cur).
  induction lines as [|line rest IH]; intros a b; simpl; [done |].
  by rewrite IH.
Qed.

Lemma taxed_max_gross a cur :
  (0 <= gross (taxed_max a (zero_taxed_money cur)))%Q.
Proof.
  unfold taxed_max, taxed_lt. destruct (Qlt_bool _ _) eqn:E.
  - simpl. unfold zero_money. lra.
  - by apply Qlt_bool_false in E.
Qed.

Lemma positive_not_le_zero b cur :
  (0 < b)%Q → taxed_le (mkTaxedMoney b b) (zero_taxed_money cur) = false.
Proof.
  intros Hb. unfold taxed_le, taxed_eq, taxed_lt, zero_taxed_money, zero_money.
  simpl. apply orb_false_iff. split.
  - destruct (Qeq_bool b 0) eqn:E; [|done]. apply Qeq_bool_iff in E. lra.
  - apply Qlt_bool_false. lra.
Qed.


(** C7.  With a positive base total and a manual discount whose amount
    exceeds the undiscounted subtotal of the lines by [X], the order total
    is the sum of the discounted totals of the lines plus the shipping
    price, minus [X] on the net and on the gross amount, replaced by zero
    when its gross amount is negative, and rounded to the currency
    precision.  The manual discount is the first one of the order. *)
Theorem order_total_compensates_excess_discount
  env order lines order_discount X :
  let cur := currency order in
  let lines_total := taxed_sum cur (map total_price lines) in
  let undiscounted_subtotal :=
    taxed_sum cur (map undiscounted_total_price lines) in
  let naive := taxed_add lines_total (shipping_price order) in
  (0 < base_order_total env order lines)%Q →
  first_manual_discount order = Some order_discount →
  X = (amount order_discount - gross undiscounted_subtotal)%Q →
  (0 < X)%Q →
  _calculate_order_total env order lines
  = quantize_taxed env
      (taxed_max (mkTaxedMoney (net naive - X) (gross naive - X))
         (zero_taxed_money cur)) cur
  ∧ (0 <= gross (taxed_max (mkTaxedMoney (net naive - X) (gross naive - X))
                   (zero_taxed_money cur)))%Q.
Proof.
  intros cur lines_total undiscounted_subtotal naive Hbase Hfirst HX Hpos.
  split; [|apply taxed_max_gross].
  unfold _calculate_order_total. fold cur.
  rewrite positive_not_le_zero by done.
  rewrite sum_line_totals_eq. fold lines_total undiscounted_subtotal naive.
  rewrite Hfirst.
  assert (Hlt : Qlt_bool (gross undiscounted_subtotal) (amount order_discount)
                = true).
  { apply Qlt_bool_iff. subst X. lra. }
  rewrite Hlt. by subst X.
Qed.

Lemma order_total_compensates_excess_discount_witness :
  let env := example_tax_env 30 25 in
  let lines := [example_line 10 1; example_line 10 1] in
  (gross (_calculate_order_total env (example_order [30%Q]) lines) == 15)%Q
  ∧ (net (_calculate_order_total env (example_order [30%Q]) lines) == 15)%Q.
Proof.
  intros env lines.
  rewrite (proj1 (order_total_compensates_excess_discount env
                    (example_order [30%Q]) lines (mkOrderDiscount MANUAL 30)
                    10%Q ltac:(vm_compute; reflexivity) eq_refl
                    ltac:(vm_compute; reflexivity)
                    ltac:(vm_compute; reflexivity))).
  split; vm_compute; reflexivity.
Defined.

(** ** The roundings of the example environment

    Rounding half-up to two places keeps zero and is monotone, as the
    statements on clamped and on zero amounts ask of a rounding. *)

Lemma round_half_up_zero q : (q == 0)%Q → (round_half_up 2 q == 0)%Q.
Proof.
  intros Hq. unfold round_half_up. change (inject_Z (10 ^ 2)) with (100 # 1)%Q.
  assert (Hs : (q * (100 # 1) == 0)%Q) by (rewrite Hq; ring).
  assert (Hle : Qle_bool 0 (q * (100 # 1)) = true).
  { apply Qle_bool_iff. rewrite Hs. apply Qle_refl. }
  rewrite Hle.
  assert (Hf : Qfloor (q * (100 # 1) + (1 # 2)) = 0).
  { rewrite (Qfloor_comp _ (1 # 2)); [reflexivity |]. rewrite Hs. ring. }
  rewrite Hf. reflexivity.
Qed.

Lemma round_half_up_monotone a b :
  (a <= b)%Q → (round_half_up 2 a <= round_half_up 2 b)%Q.
Proof.
  intros Hab. unfold round_half_up. change (inject_Z (10 ^ 2)) with (100 # 1)%Q.
  set (sa := (a * (100 # 1))%Q). set (sb := (b * (100 # 1))%Q).
  assert (Hs : (sa <= sb)%Q) by (unfold sa, sb; lra).
  assert (Hn : (if Qle_bool 0 sa then Qfloor (sa + (1 # 2))
                else Qceiling (sa - (1 # 2)))
               <= (if Qle_bool 0 sb then Qfloor (sb + (1 # 2))
                   else Qceiling (sb - (1 # 2)))).
  { destruct (Qle_bool 0 sa) eqn:Ea; destruct (Qle_bool 0 sb) eqn:Eb.
    - apply Qfloor_resp_le. lra.
    - apply Qle_bool_iff in Ea.
      assert (¬ (0 <= sb)%Q) by (intros H; apply Qle_bool_iff in H; congruence).
      lra.
    - apply Qle_bool_iff in Eb.
      assert (Ha : ¬ (0 <= sa)%Q)
        by (intros H; apply Qle_bool_iff in H; congruence).
      transitivity 0.
      + change 0 with (Qceiling 0). apply Qceiling_resp_le. lra.
      + change 0 with (Qfloor 0). apply Qfloor_resp_le. lra.
    - apply Qceiling_resp_le. lra. }
  rewrite Zle_Qle in Hn. unfold Qdiv.
  apply Qmult_le_compat_r; [exact Hn | discriminate].
Qed.

Lemma example_rounding_fits total base cur :
  (quantize_money (example_tax_env total base) 0 cur == 0)%Q
  ∧ (∀ q, (q == 0)%Q → (quantize_money (example_tax_env total base) q cur == 0)%Q)
  ∧ (∀ a b, (a <= b)%Q →
            (quantize_money (example_tax_env total base) a cur
             <= quantize_money (example_tax_env total base) b cur)%Q).
Proof.
  simpl. split; [by apply round_half_up_zero |].
  split; [apply round_half_up_zero | apply round_half_up_monotone].
Qed.

(** ** The early return of [_calculate_order_total] *)


(** The base total that the specification describes, lines plus shipping,
    is not negative when no price and no quantity is. *)
Lemma spec_base_order_total_not_negative order lines :
  Forall (fun line => (0 <= base_unit_price line)%Q ∧ 0 <= quantity line)
    lines →
  (0 <= base_shipping_price order)%Q →
  (0 <= spec_base_order_total order lines)%Q.
Proof.
  intros Hlines Hship. unfold spec_base_order_total, order_total_price_of.
  assert (Hsum : (0 <= decimal_sum (map line_total_price lines))%Q).
  { induction Hlines as [|line rest [Hp Hq] Hrest IH]; [by vm_compute |].
    change (map line_total_price (line :: rest))
      with (line_total_price line :: map line_total_price rest).
    rewrite decimal_sum_cons.
    assert (Hl : (0 <= line_total_price line)%Q).
    { unfold line_total_price. apply Qmult_le_0_compat; [done |].
      unfold Qle. simpl. lia. }
    set (a := line_total_price line) in *.
    set (b := decimal_sum (map line_total_price rest)) in *. lra. }
  set (a := decimal_sum (map line_total_price lines)) in *.
  set (b := base_shipping_price order) in *. lra.
Qed.




(** * Further properties *)

(** ** When [clean_predicate] succeeds *)

Section Outcome.
Variable index : option Z.

Local Abbreviation rec := (fun x => clean_predicate x index).
Local Abbreviation mixed := (ExcValidation (mixed_operators_error index)).

(** What the induction shows of a value met in a comprehension. *)
Local Abbreviation settled v :=
  ((no_mixed_operators v = true → succeeds (clean_item rec v))
   ∧ (no_mixed_operators v = false → clean_item rec v = Raise mixed)).

Lemma clean_list_outcome l :
  Forall (fun v => settled v) l →
  (forallb no_mixed_operators l = true → succeeds (clean_list rec l))
  ∧ (forallb no_mixed_operators l = false → clean_list rec l = Raise mixed).
Proof.
  induction 1 as [|v r [Hok Hbad] Hr [IHok IHbad]]; simpl.
  - split; [by exists [] | done].
  - destruct (no_mixed_operators v) eqn:Ev; simpl.
    + destruct (Hok eq_refl) as [v' ->]. split.
      * intros Hr'. destruct (IHok Hr') as [vs ->]. by eexists.
      * intros Hr'. by rewrite (IHbad Hr').
    + split; [done |]. intros _. by rewrite (Hbad eq_refl).
Qed.

Lemma clean_items_outcome d acc :
  Forall (fun kv => settled (snd kv)) d →
  (forallb (fun kv => no_mixed_operators (snd kv)) d = true →
   succeeds (clean_items rec d acc))
  ∧ (forallb (fun kv => no_mixed_operators (snd kv)) d = false →
     clean_items rec d acc = Raise mixed).
Proof.
  intros Hd. revert acc.
  induction Hd as [|[k v] r [Hok Hbad] Hr IH]; intros acc; simpl in *.
  - split; [by exists acc | done].
  - destruct (no_mixed_operators v) eqn:Ev; simpl.
    + destruct (Hok eq_refl) as [v' ->]. apply IH.
    + split; [done |]. intros _. by rewrite (Hbad eq_refl).
Qed.

Lemma clean_predicate_outcome p :
  is_dict_or_list p = true →
  (no_mixed_operators p = true → succeeds (clean_predicate p index))
  ∧ (no_mixed_operators p = false → clean_predicate p index = Raise mixed).
Proof.
  induction p as [| | | |l IH|d IH] using pyval_ind; try done; intros _.
  - assert (Hl : Forall (fun v => settled v) l).
    { eapply Forall_impl; [exact IH |]. intros v Hv. unfold clean_item.
      destruct (is_dict_or_list v) eqn:E; [by apply Hv |].
      split; [by eexists | by destruct v]. }
    destruct (clean_list_outcome l Hl) as [Hok Hbad]. simpl. split.
    + intros H. destruct (Hok H) as [vs ->]. by eexists.
    + intros H. by rewrite (Hbad H).
  - assert (Hd : Forall (fun kv => settled (snd kv)) d).
    { eapply Forall_impl; [exact IH |]. intros [k v] Hv. simpl in *.
      unfold clean_item.
      destruct (is_dict_or_list v) eqn:E; [by apply Hv |].
      split; [by eexists | by destruct v]. }
    destruct (clean_items_outcome d [] Hd) as [Hok Hbad]. simpl.
    destruct (_contains_operator d && (1 <? length d)%nat); simpl.
    + split; [done | done].
    + split.
      * intros H. destruct (Hok H) as [d' ->]. by eexists.
      * intros H. by rewrite (Hbad H).
Qed.
End Outcome.

(** X1.  On a dict or a list, [clean_predicate] succeeds exactly when no
    dict of the tree holds an operator beside another key; otherwise the
    exception is the INVALID validation error, with the index of the
    call. *)
Theorem clean_predicate_succeeds_iff p index :
  is_dict_or_list p = true →
  (succeeds (clean_predicate p index) ↔ no_mixed_operators p = true)
  ∧ (no_mixed_operators p = false →
     clean_predicate p index
     = Raise (ExcValidation (mixed_operators_error index))).
Proof.
  intros Hp. destruct (clean_predicate_outcome index p Hp) as [Hok Hbad].
  split; [|done]. split; [|done].
  intros [q Hq]. destruct (no_mixed_operators p) eqn:E; [done |].
  rewrite (Hbad eq_refl) in Hq. discriminate.
Qed.

Lemma clean_predicate_succeeds_iff_witness :
  succeeds
    (clean_predicate
       (PDict [("OR", PList [PDict [("total_price", PInt 1)];
                             PDict [("AND", PList [])]])]) (Some 2))
  ∧ clean_predicate
      (PList [PDict [("OR", PList []); ("total_price", PInt 1)]]) (Some 2)
    = Raise (ExcValidation (mixed_operators_error (Some 2))).
Proof.
  split.
  - apply (clean_predicate_succeeds_iff
             (PDict [("OR", PList [PDict [("total_price", PInt 1)];
                                   PDict [("AND", PList [])]])])
             (Some 2) eq_refl). reflexivity.
  - apply (clean_predicate_succeeds_iff
             (PList [PDict [("OR", PList []); ("total_price", PInt 1)]])
             (Some 2) eq_refl). reflexivity.
Defined.

(** ** The shape of a cleaned tree *)

(** X2.  A cleaned list has the elements of the list in their order:
    a dict or a list is replaced by its cleaned form, any other element
    is kept; no element is dropped or added. *)
Theorem clean_predicate_list_shape l index q :
  clean_predicate (PList l) index = Ok q →
  ∃ l',
    q = PList l'
    ∧ length l' = length l
    ∧ Forall2
        (fun v v' =>
           if is_dict_or_list v then clean_predicate v index = Ok v'
           else v' = v)
        l l'.
Proof.
  simpl. destruct (clean_list _ l) as [l'|e] eqn:E; [|done].
  intros [= <-]. exists l'. split; [done |].
  apply clean_list_Forall2 in E. split.
  - symmetry. by eapply Forall2_length.
  - eapply Forall2_impl; [exact E |]. intros v v'. unfold clean_item.
    destruct (is_dict_or_list v); [done | by intros [= <-]].
Qed.

Lemma clean_predicate_list_shape_witness :
  ∃ l',
    clean_predicate
      (PList [PStr "total_price"; PDict [("total_price", PNone)]]) None
    = Ok (PList l')
    ∧ length l' = 2%nat.
Proof.
  destruct (clean_predicate_list_shape
              [PStr "total_price"; PDict [("total_price", PNone)]] None
              (PList [PStr "total_price"; PDict [("totalPrice", PNone)]])
              eq_refl) as (l' & Hq & Hlen & _).
  exists l'. split; [by rewrite <- Hq | exact Hlen].
Defined.

Lemma clean_items_keys_complete rec d acc out key :
  clean_items rec d acc = Ok out →
  key ∈ dict_keys acc ∨ key ∈ map to_camel_case (dict_keys d) →
  key ∈ dict_keys out.
Proof.
  revert acc. induction d as [|[k v] r IH]; intros acc; simpl.
  - intros [= <-] [H|H]; [done | by apply elem_of_nil in H].
  - destruct (clean_item rec v) as [v'|e]; [|done].
    intros Hout Hkey. apply (IH _ Hout). rewrite dict_set_keys.
    destruct Hkey as [Hacc|Hd].
    + left. destruct (dict_has _ acc); [done |].
      apply elem_of_app. by left.
    + apply elem_of_cons in Hd as [->|Hd]; [|by right].
      left. destruct (dict_has (to_camel_case k) acc) eqn:Eh.
      * by apply dict_has_spec.
      * apply elem_of_app. right. by apply list_elem_of_singleton.
Qed.

(** X3.  The keys of a cleaned dict are the camel-case names of the keys
    of the dict, each of them once: a key is never lost, and two keys with
    the same camel-case name leave one entry. *)
Theorem clean_predicate_dict_keys d index q :
  clean_predicate (PDict d) index = Ok q →
  ∃ d',
    q = PDict d'
    ∧ NoDup (dict_keys d')
    ∧ ∀ key, key ∈ dict_keys d' ↔ key ∈ map to_camel_case (dict_keys d).
Proof.
  simpl. destruct (_ && _); [done |].
  destruct (clean_items _ d []) as [d'|e] eqn:E; [|done].
  intros [= <-]. exists d'. split; [done |]. split.
  - eapply clean_items_NoDup; [|exact E]. constructor.
  - intros key. split.
    + intros Hkey.
      destruct (clean_items_keys _ _ _ _ _ E Hkey) as [H|(k & Hk & ->)].
      * by apply elem_of_nil in H.
      * apply list_elem_of_fmap. by exists k.
    + intros Hkey. eapply clean_items_keys_complete; [exact E | by right].
Qed.

Lemma clean_predicate_dict_keys_witness :
  ∃ d',
    clean_predicate
      (PDict [("total_price", PInt 1); ("totalPrice", PInt 2)]) None
    = Ok (PDict d')
    ∧ dict_keys d' = ["totalPrice"].
Proof.
  destruct (clean_predicate_dict_keys
              [("total_price", PInt 1); ("totalPrice", PInt 2)] None
              (PDict [("totalPrice", PInt 2)]) eq_refl)
    as (d' & Hq & _ & _).
  exists d'. split; [by rewrite <- Hq |]. by injection Hq as <-.
Defined.

Lemma clean_items_distinct rec d acc out :
  NoDup (dict_keys acc ++ map to_camel_case (dict_keys d)) →
  clean_items rec d acc = Ok out →
  ∃ d',
    out = (acc ++ d')%list
    ∧ Forall2
        (fun kv kv' =>
           fst kv' = to_camel_case (fst kv)
           ∧ clean_item rec (snd kv) = Ok (snd kv'))
        d d'.
Proof.
  revert acc. induction d as [|[k v] r IH]; intros acc Hnd; simpl.
  - intros [= <-]. exists []. split; [by rewrite app_nil_r | constructor].
  - destruct (clean_item rec v) as [v'|e] eqn:Ev; [|done].
    simpl in Hnd.
    assert (Hfresh : dict_has (to_camel_case k) acc = false).
    { destruct (dict_has (to_camel_case k) acc) eqn:E; [|done].
      apply dict_has_spec in E. apply NoDup_app in Hnd as (_ & Hd & _).
      exfalso. apply (Hd _ E). left. }
    rewrite dict_set_fresh by done. intros Hout.
    destruct (IH (acc ++ [(to_camel_case k, v')])%list) as (d' & -> & Hd');
      [|exact Hout|].
    + unfold dict_keys. rewrite fmap_app. simpl. rewrite <- app_assoc.
      exact Hnd.
    + exists ((to_camel_case k, v') :: d'). split.
      * by rewrite <- app_assoc.
      * constructor; [done | done].
Qed.

(** X4.  When the camel-case names of the keys of a dict are pairwise
    different, the cleaned dict has one entry per entry of the dict, in
    the same order: the key renamed, the value cleaned when it is a dict
    or a list and kept otherwise. *)
Theorem clean_predicate_keeps_order d index q :
  NoDup (map to_camel_case (dict_keys d)) →
  clean_predicate (PDict d) index = Ok q →
  ∃ d',
    q = PDict d'
    ∧ Forall2
        (fun kv kv' =>
           fst kv' = to_camel_case (fst kv)
           ∧ if is_dict_or_list (snd kv)
             then clean_predicate (snd kv) index = Ok (snd kv')
             else snd kv' = snd kv)
        d d'.
Proof.
  intros Hnd. simpl. destruct (_ && _); [done |].
  destruct (clean_items _ d []) as [out|e] eqn:E; [|done].
  intros [= <-].
  destruct (clean_items_distinct _ d [] out Hnd E) as (d' & -> & Hd').
  exists d'. split; [done |].
  eapply Forall2_impl; [exact Hd' |]. intros kv kv' [Hk Hv].
  split; [done |]. unfold clean_item in Hv.
  destruct (is_dict_or_list (snd kv)); [done | by injection Hv].
Qed.

Lemma clean_predicate_keeps_order_witness :
  ∃ d',
    clean_predicate
      (PDict [("total_price", PDict [("gte", PInt 1)]); ("id", PStr "x")])
      None
    = Ok (PDict d')
    ∧ dict_keys d' = ["totalPrice"; "id"].
Proof.
  destruct (clean_predicate_keeps_order
              [("total_price", PDict [("gte", PInt 1)]); ("id", PStr "x")]
              None
              (PDict [("totalPrice", PDict [("gte", PInt 1)]);
                      ("id", PStr "x")])
              ltac:(apply (bool_decide_unpack _); vm_compute; reflexivity)
              eq_refl)
    as (d' & Hq & _).
  exists d'. split; [by rewrite <- Hq |]. by injection Hq as <-.
Defined.

(** ** Names without underscore *)

Lemma string_app_empty s : s +:+ "" = s.
Proof.
  induction s as [|c r IH]; [done |].
  change (String c (r +:+ "") = String c r). by rewrite IH.
Qed.

Lemma rev_app_app a b r : String.rev_app a b +:+ r = String.rev_app a (b +:+ r).
Proof.
  revert b. induction a as [|x a IH]; intros b; [done |].
  exact (IH (String x b)).
Qed.

Lemma split_on_no_sep sep s cur :
  str_has_char sep s = false → split_on sep s cur = [String.rev cur +:+ s].
Proof.
  revert cur. induction s as [|c r IH]; intros cur.
  - intros _. simpl split_on. by rewrite string_app_empty.
  - simpl. intros [Hc Hr]%orb_false_iff. rewrite Ascii.eqb_sym, Hc, (IH _ Hr).
    unfold String.rev. simpl. by rewrite !rev_app_app.
Qed.

Lemma to_camel_case_no_underscore s :
  str_has_char "_"%char s = false → to_camel_case s = s.
Proof.
  intros Hs. unfold to_camel_case. rewrite (split_on_no_sep _ _ _ Hs).
  change (s +:+ "" = s). apply string_app_empty.
Qed.

(** X5.  A tree that is normalized already, with keys free of underscores
    and pairwise different in every dict and with no operator beside
    another key, is returned by [clean_predicate] as it is. *)
Theorem clean_predicate_fixes_normalized p index :
  is_dict_or_list p = true →
  normalized p = true →
  no_mixed_operators p = true →
  clean_predicate p index = Ok p.
Proof.
  induction p as [| | | |l IH|d IH] using pyval_ind; try done; intros _.
  - simpl. intros Hn Hm.
    apply forallb_Forall_true in Hn. apply forallb_Forall_true in Hm.
    rewrite clean_list_fixed; [done |].
    induction IH as [|v r IHv IHr IHl]; [constructor |].
    apply Forall_cons in Hn as [Hn Hn']. apply Forall_cons in Hm as [Hm Hm'].
    constructor; [|by apply IHl]. unfold clean_item.
    destruct (is_dict_or_list v) eqn:E; [by apply IHv | done].
  - simpl. intros [Hn Hnd]%andb_true_iff [Hop Hm]%andb_true_iff.
    apply negb_true_iff in Hop. rewrite Hop.
    apply forallb_Forall_true in Hn. apply forallb_Forall_true in Hm.
    apply bool_decide_eq_true_1 in Hnd.
    rewrite clean_items_fixed.
    + by rewrite rebuild_dict.
    + clear Hnd Hop. induction IH as [|[k v] r IHv IHr IHl]; [constructor |].
      apply Forall_cons in Hn as [Hn Hn']. apply Forall_cons in Hm as [Hm Hm'].
      simpl in *. apply andb_true_iff in Hn as [Hk Hv].
      apply negb_true_iff in Hk.
      constructor; [|by apply IHl]. simpl.
      split; [by apply to_camel_case_no_underscore |]. unfold clean_item.
      destruct (is_dict_or_list v) eqn:E; [by apply IHv | done].
Qed.

Lemma clean_predicate_fixes_normalized_witness :
  clean_predicate
    (PDict [("OR", PList [PDict [("totalPrice", PDict [("gte", PInt 1)])];
                          PDict [("subtotalPrice", PNone)]])]) (Some 1)
  = Ok (PDict [("OR", PList [PDict [("totalPrice", PDict [("gte", PInt 1)])];
                             PDict [("subtotalPrice", PNone)]])]).
Proof.
  apply (clean_predicate_fixes_normalized
           (PDict [("OR",
                    PList [PDict [("totalPrice", PDict [("gte", PInt 1)])];
                           PDict [("subtotalPrice", PNone)]])]) (Some 1));
    vm_compute; reflexivity.
Defined.

(** ** The error map only grows *)

Lemma errors_grow_refl (errors : Errors) : errors_grow errors errors.
Proof. intros field. exists []. by rewrite app_nil_r. Qed.

Lemma errors_grow_trans (e1 e2 e3 : Errors) :
  errors_grow e1 e2 → errors_grow e2 e3 → errors_grow e1 e3.
Proof. intros H12 H23 field. etrans; [apply H12 | apply H23]. Qed.

Lemma errors_append_grow field error (errors : Errors) :
  errors_grow errors (errors_append field error errors).
Proof.
  intros field'. destruct (decide (field = field')) as [->|Hne].
  - rewrite errors_append_lookup. simpl. by apply prefix_app_r.
  - by rewrite errors_append_lookup_ne.
Qed.

Lemma errors_append_all_grow fields error (errors : Errors) :
  errors_grow errors (errors_append_all fields error errors).
Proof.
  unfold errors_append_all. revert errors.
  induction fields as [|field fields IH]; intros errors; simpl.
  - apply errors_grow_refl.
  - eapply errors_grow_trans; [apply errors_append_grow | apply IH].
Qed.

Lemma has_error_append field error (errors : Errors) :
  has_error (errors_append field error errors).
Proof.
  exists field. rewrite errors_append_lookup.
  destruct (default [] (errors !! field)) as [|e l]; simpl; eauto.
Qed.

Lemma has_error_grow (errors errors' : Errors) :
  has_error errors → errors_grow errors errors' → has_error errors'.
Proof.
  intros (field & error & rest & Hl) Hgrow. specialize (Hgrow field).
  rewrite Hl in Hgrow. simpl in Hgrow. destruct Hgrow as [more Hmore].
  exists field, error, (rest ++ more)%list.
  destruct (errors' !! field) as [l|]; simpl in Hmore; [by subst |done].
Qed.

Lemma no_error_empty : ¬ has_error (∅ : Errors).
Proof. intros (field & error & rest & H). by rewrite lookup_empty in H. Qed.

Create HintDb grow.
#[local] Hint Resolve errors_grow_refl errors_append_grow
  errors_append_all_grow : grow.

Lemma clean_predicates_grow ci cat chk errors index ptype instance :
  errors_grow errors
    (snd (_clean_predicates ci cat chk errors index ptype instance)).
Proof.
  unfold _clean_predicates. repeat case_match; cbn [snd]; auto with grow.
Qed.

Lemma clean_catalogue_predicate_grow ci cat errors index instance ci' errors' :
  _clean_catalogue_predicate ci cat errors index instance = Ok (ci', errors') →
  errors_grow errors errors'.
Proof.
  unfold _clean_catalogue_predicate.
  repeat case_match; intros [= <- <-]; auto with grow.
Qed.

Lemma clean_checkout_and_order_predicate_grow
  env ci chk currencies errors index instance ci' errors' :
  _clean_checkout_and_order_predicate env ci chk currencies errors index
    instance = Ok (ci', errors') →
  errors_grow errors errors'.
Proof.
  unfold _clean_checkout_and_order_predicate.
  repeat case_match; intros [= <- <-]; auto with grow.
Qed.

Lemma clean_reward_value_grow env ci v t currencies errors index instance :
  errors_grow errors
    (_clean_reward_value env ci v t currencies errors index instance).
Proof.
  unfold _clean_reward_value. repeat case_match; auto with grow.
Qed.

Lemma clean_reward_grow env ci cat chk currencies errors index instance :
  errors_grow errors
    (_clean_reward env ci cat chk currencies errors index instance).
Proof.
  unfold _clean_reward.
  repeat case_match;
    repeat (first [ apply errors_grow_refl
                  | eapply errors_grow_trans;
                    [|apply clean_reward_value_grow]
                  | eapply errors_grow_trans; [|apply errors_append_grow] ]).
Qed.

(** The stages of a call that returns. *)
Lemma clean_promotion_rule_ok env ci errors index ptype instance ci' errors' :
  clean_promotion_rule env ci errors index ptype instance = Ok (ci', errors') →
  ∃ invalid e1,
    _clean_predicates ci (effective_catalogue_predicate ci instance)
      (effective_checkout_and_order_predicate ci instance) errors index ptype
      instance = (invalid, e1)
    ∧ ((invalid = true ∧ ci' = ci ∧ errors' = e1)
       ∨ (invalid = false
          ∧ ∃ currencies ci2 e2 e3,
              _get_channel_currencies ci instance = Ok currencies
              ∧ _clean_catalogue_predicate ci
                  (effective_catalogue_predicate ci instance) e1 index
                  instance = Ok (ci2, e2)
              ∧ _clean_checkout_and_order_predicate env ci2
                  (effective_checkout_and_order_predicate ci instance)
                  currencies e2 index instance = Ok (ci', e3)
              ∧ errors'
                = _clean_reward env ci'
                    (effective_catalogue_predicate ci instance)
                    (effective_checkout_and_order_predicate ci instance)
                    currencies e3 index instance)).
Proof.
  unfold clean_promotion_rule.
  change (match instance with
          | Some inst =>
              pyval_or (get_predicate (catalogue_predicate ci))
                (rule_catalogue_predicate inst)
          | None => get_predicate (catalogue_predicate ci)
          end) with (effective_catalogue_predicate ci instance).
  change (match instance with
          | Some inst =>
              pyval_or (get_predicate (checkout_and_order_predicate ci))
                (rule_checkout_and_order_predicate inst)
          | None => get_predicate (checkout_and_order_predicate ci)
          end) with (effective_checkout_and_order_predicate ci instance).
  cbv zeta. intros H.
  destruct (_clean_predicates _ _ _ _ _ _ _) as [invalid e1].
  exists invalid, e1. split; [done |].
  destruct invalid; cbn [negb] in *; cbv beta iota in *.
  - injection H as <- <-. by left.
  - right. split; [done |].
    apply bind_ok in H as (currencies & Hcur & H). cbv beta in H.
    apply bind_ok in H as ([ci2 e2] & H2 & H). cbv beta iota in H.
    apply bind_ok in H as ([ci3 e3] & H3 & H). cbv beta iota in H.
    injection H as <- <-. by exists currencies, ci2, e2, e3.
Qed.

(** X6.  Whatever the input, [clean_promotion_rule] keeps the errors it
    is given: for every field, the errors that were recorded before the
    call are the beginning, in the same order, of the errors recorded
    after it. *)
Theorem clean_promotion_rule_keeps_errors
  env ci errors index ptype instance ci' errors' :
  clean_promotion_rule env ci errors index ptype instance = Ok (ci', errors') →
  errors_grow errors errors'.
Proof.
  intros H. apply clean_promotion_rule_ok in H as (invalid & e1 & H1 & H).
  pose proof (clean_predicates_grow ci
                (effective_catalogue_predicate ci instance)
                (effective_checkout_and_order_predicate ci instance)
                errors index ptype instance) as Hg1.
  rewrite H1 in Hg1. simpl in Hg1.
  destruct H as [(_ & _ & ->)|(_ & cur & ci2 & e2 & e3 & _ & H2 & H3 & ->)];
    [done |].
  apply clean_catalogue_predicate_grow in H2.
  apply clean_checkout_and_order_predicate_grow in H3.
  eapply errors_grow_trans; [exact Hg1 |].
  eapply errors_grow_trans; [exact H2 |].
  eapply errors_grow_trans; [exact H3 |].
  apply clean_reward_grow.
Qed.

Lemma clean_promotion_rule_keeps_errors_witness :
  errors_grow
    (errors_append "channels" (missing_channels_error None) ∅)
    (errors_append "checkout_and_order_predicate"
       (predicates_required_error (Some 3))
       (errors_append "catalogue_predicate"
          (predicates_required_error (Some 3))
          (errors_append "channels" (missing_channels_error None) ∅))).
Proof.
  apply (clean_promotion_rule_keeps_errors example_validator_env empty_input
           (errors_append "channels" (missing_channels_error None) ∅)
           (Some 3) None None empty_input).
  reflexivity.
Defined.

(** ** What a call changes in [cleaned_input] *)

Lemma clean_predicates_valid ci cat chk errors index ptype instance e1 :
  _clean_predicates ci cat chk errors index ptype instance = (false, e1) →
  e1 = errors
  ∧ is_none cat && is_none chk = false
  ∧ truthy cat && truthy chk = false
  ∧ truthy cat && predicate_type_is CHECKOUT_AND_ORDER ptype = false
  ∧ truthy chk && predicate_type_is CATALOGUE ptype = false.
Proof.
  unfold _clean_predicates.
  destruct (is_none cat && is_none chk); [done |].
  destruct (truthy cat && truthy chk); [done |].
  destruct (truthy cat && predicate_type_is _ ptype); [done |].
  destruct (truthy chk && predicate_type_is _ ptype); [done |].
  by intros [= <-].
Qed.

Lemma clean_catalogue_predicate_change ci cat errors index instance ci' errors' :
  _clean_catalogue_predicate ci cat errors index instance = Ok (ci', errors') →
  ci' = ci
  ∨ (truthy cat = true
     ∧ is_some (catalogue_predicate ci) = true
     ∧ errors' = errors
     ∧ ∃ q, clean_predicate cat index = Ok q
            ∧ ci' = set_catalogue_predicate q ci).
Proof.
  unfold _clean_catalogue_predicate.
  destruct (truthy cat) eqn:Ecat; simpl; [|intros [= <- <-]; by left].
  destruct (is_some _); [intros [= <- <-]; by left |].
  change (key_in "catalogue_predicate" ci)
    with (is_some (catalogue_predicate ci)).
  destruct (is_some (catalogue_predicate ci)) eqn:Ekey; simpl;
    [|intros [= <- <-]; by left].
  destruct (clean_predicate cat index) as [q|e] eqn:Eq.
  - intros [= <- <-]. right. repeat split. by exists q.
  - destruct e; intros [= <- <-]. by left.
Qed.

Lemma clean_checkout_and_order_predicate_change
  env ci chk currencies errors index instance ci' errors' :
  _clean_checkout_and_order_predicate env ci chk currencies errors index
    instance = Ok (ci', errors') →
  ci' = ci
  ∨ (truthy chk = true
     ∧ is_some (checkout_and_order_predicate ci) = true
     ∧ ∃ q, clean_predicate chk index = Ok q
            ∧ ci' = set_checkout_and_order_predicate q ci).
Proof.
  unfold _clean_checkout_and_order_predicate.
  destruct (truthy chk) eqn:Echk; simpl; [|intros [= <- <-]; by left].
  destruct (negb (is_some _)); [intros [= <- <-]; by left |].
  destruct (_ && price_based chk); [intros [= <- <-]; by left |].
  change (key_in "checkout_and_order_predicate" ci)
    with (is_some (checkout_and_order_predicate ci)).
  destruct (is_some (checkout_and_order_predicate ci)) eqn:Ekey; simpl;
    [|intros [= <- <-]; by left].
  destruct (clean_predicate chk index) as [q|e] eqn:Eq.
  - intros H. right. repeat split. exists q. split; [done |].
    repeat case_match; by injection H as <- <-.
  - destruct e; intros [= <- <-]. by left.
Qed.

(** X7.  A call that returns hands back the input with at most one key
    rewritten.  The reward keys, the channel keys and the promotion are as
    they were; no predicate key is added or removed; and a predicate that
    differs from the one given is the cleaned form of the effective
    predicate of its kind, the other predicate being untouched. *)
Theorem clean_promotion_rule_rewrites_one_predicate
  env ci errors index ptype instance ci' errors' :
  clean_promotion_rule env ci errors index ptype instance = Ok (ci', errors') →
  (reward_type ci' = reward_type ci
   ∧ reward_value ci' = reward_value ci
   ∧ reward_value_type ci' = reward_value_type ci
   ∧ channels ci' = channels ci
   ∧ add_channels ci' = add_channels ci
   ∧ remove_channels ci' = remove_channels ci
   ∧ promotion ci' = promotion ci)
  ∧ (is_some (catalogue_predicate ci') = is_some (catalogue_predicate ci)
     ∧ is_some (checkout_and_order_predicate ci')
       = is_some (checkout_and_order_predicate ci))
  ∧ (ci' = ci
     ∨ (∃ q, clean_predicate (effective_catalogue_predicate ci instance) index
             = Ok q
             ∧ ci' = set_catalogue_predicate q ci)
     ∨ (∃ q, clean_predicate
               (effective_checkout_and_order_predicate ci instance) index
             = Ok q
             ∧ ci' = set_checkout_and_order_predicate q ci)).
Proof.
  intros H. apply clean_promotion_rule_ok in H as (invalid & e1 & H1 & H).
  destruct H as [(_ & -> & _)|(-> & cur & ci2 & e2 & e3 & _ & H2 & H3 & _)].
  { repeat split; by left. }
  apply clean_predicates_valid in H1 as (_ & _ & Hboth & _).
  apply clean_catalogue_predicate_change in H2.
  apply clean_checkout_and_order_predicate_change in H3.
  destruct H2 as [->|(Hcat & Hkey & _ & q & Hq & ->)].
  - destruct H3 as [->|(Hchk & Hkey & q & Hq & ->)].
    + repeat split; by left.
    + repeat split; simpl; try done; try (by rewrite Hkey).
      right. right. by exists q.
  - destruct H3 as [->|(Hchk & _)].
    + repeat split; simpl; try done; try (by rewrite Hkey).
      right. left. by exists q.
    + rewrite Hcat, Hchk in Hboth. done.
Qed.

Lemma clean_promotion_rule_rewrites_one_predicate_witness :
  ∃ q,
    clean_predicate
      (effective_checkout_and_order_predicate empty_and_price_input None)
      None = Ok q
    ∧ set_checkout_and_order_predicate
        (PDict [("totalPrice", PDict [("eq", PInt 10)])])
        empty_and_price_input
      = set_checkout_and_order_predicate q empty_and_price_input.
Proof.
  destruct (clean_promotion_rule_rewrites_one_predicate example_validator_env
              empty_and_price_input ∅ None None None
              (set_checkout_and_order_predicate
                 (PDict [("totalPrice", PDict [("eq", PInt 10)])])
                 empty_and_price_input) ∅ eq_refl)
    as (_ & _ & [H|[(q & Hq & H)|(q & Hq & H)]]).
  - discriminate H.
  - discriminate H.
  - by exists q.
Defined.

(** ** What a create without errors guarantees *)

Lemma errors_append_changes field error (errors : Errors) :
  ¬ has_error errors → errors_append field error errors ≠ errors.
Proof. intros Hno Heq. apply Hno. rewrite <- Heq. apply has_error_append. Qed.

Lemma clean_catalogue_predicate_quiet ci cat errors index ci' :
  ¬ has_error errors →
  _clean_catalogue_predicate ci cat errors index None = Ok (ci', errors) →
  truthy cat = true → get (reward_type ci) = None.
Proof.
  intros Hno. unfold _clean_catalogue_predicate. intros H Hcat.
  rewrite Hcat in H. simpl in H.
  destruct (get (reward_type ci)) as [rt|]; [|done]. simpl in H.
  injection H as _ H. by apply errors_append_changes in H.
Qed.

Lemma clean_checkout_and_order_predicate_quiet
  env ci chk currencies errors index ci' :
  ¬ has_error errors →
  _clean_checkout_and_order_predicate env ci chk currencies errors index None
  = Ok (ci', errors) →
  truthy chk = true →
  is_some (get (reward_type ci)) = true
  ∧ (price_based chk = true → (size currencies ≤ 1)%nat).
Proof.
  intros Hno. unfold _clean_checkout_and_order_predicate. intros H Hchk.
  rewrite Hchk in H. simpl in H.
  destruct (get (reward_type ci)) as [rt|]; simpl in H.
  - split; [done |]. intros Hprice. rewrite Hprice, andb_true_r in H.
    destruct (1 <? size currencies)%nat eqn:E.
    + injection H as _ H. by apply errors_append_changes in H.
    + apply Nat.ltb_ge in E. lia.
  - injection H as _ H. by apply errors_append_changes in H.
Qed.

Lemma clean_reward_value_quiet env ci v t currencies (errors : Errors) index :
  ¬ has_error errors →
  errors !! "channels" = None →
  _clean_reward_value env ci v t currencies errors index None = errors →
  match t with
  | PERCENTAGE => (v <= 100)%Q
  | FIXED =>
      ∃ currency,
        elements currencies = [currency]
        ∧ validate_price_precision env v currency = true
  end.
Proof.
  intros Hno Hchan. unfold _clean_reward_value. rewrite Hchan. simpl.
  destruct t.
  - destruct (size currencies =? 0)%nat eqn:E0;
      [intros H; by apply errors_append_changes in H |].
    destruct (1 <? size currencies)%nat eqn:E1;
      [intros H; by apply errors_append_changes in H |].
    apply Nat.eqb_neq in E0. apply Nat.ltb_ge in E1.
    assert (Hlen : length (elements currencies) = 1%nat).
    { change (size currencies = 1%nat). lia. }
    destruct (elements currencies) as [|currency [|c2 rest]]; try done.
    unfold clean_fixed_discount_value.
    destruct (validate_price_precision env v currency) eqn:Ev;
      [intros _; by exists currency |].
    intros H. by apply errors_append_changes in H.
  - unfold clean_percentage_discount_value.
    destruct (Qle_bool v 100) eqn:E; simpl.
    + intros _. by apply Qle_bool_iff.
    + intros H. by apply errors_append_changes in H.
Qed.

Lemma clean_reward_quiet env ci cat chk currencies (errors : Errors) index :
  ¬ has_error errors →
  errors !! "channels" = None →
  _clean_reward env ci cat chk currencies errors index None = errors →
  (truthy cat || truthy chk = true →
   is_some (get (reward_value ci)) = true
   ∧ is_some (get (reward_value_type ci)) = true)
  ∧ ∀ v t,
      get (reward_value ci) = Some v → ¬ (v == 0)%Q →
      get (reward_value_type ci) = Some t →
      match t with
      | PERCENTAGE => (v <= 100)%Q
      | FIXED =>
          ∃ currency,
            elements currencies = [currency]
            ∧ validate_price_precision env v currency = true
      end.
Proof.
  intros Hno Hchan. unfold _clean_reward. simpl.
  assert (Hany : truthy (pyval_or cat chk) = (truthy cat || truthy chk)).
  { unfold pyval_or. by destruct (truthy cat) eqn:E. }
  rewrite Hany.
  destruct (get (reward_value_type ci)) as [t|] eqn:Et;
    destruct (get (reward_value ci)) as [v|] eqn:Ev; simpl.
  - intros H. split; [done |]. intros v' t' [= <-] Hv [= <-].
    assert (Hnz : Qeq_bool v 0 = false).
    { destruct (Qeq_bool v 0) eqn:E; [|done]. by apply Qeq_bool_iff in E. }
    rewrite Hnz in H. simpl in H.
    by apply (clean_reward_value_quiet env ci v t currencies errors index).
  - destruct (truthy cat || truthy chk); simpl; [|done].
    intros H. by apply errors_append_changes in H.
  - destruct (truthy cat || truthy chk); simpl; [|done].
    intros H. by apply errors_append_changes in H.
  - destruct (truthy cat || truthy chk); simpl; [|done].
    intros H. exfalso. apply Hno. rewrite <- H. apply has_error_append.
Qed.

Lemma clean_predicates_invalid_create ci cat chk errors index ptype e1 :
  _clean_predicates ci cat chk errors index ptype None = (true, e1) →
  has_error e1.
Proof.
  unfold _clean_predicates, errors_append_all, predicate_fields. simpl.
  repeat case_match; intros [= <-]; apply has_error_append.
Qed.

Lemma clean_catalogue_predicate_same ci cat errors index instance ci' errors' :
  _clean_catalogue_predicate ci cat errors index instance = Ok (ci', errors') →
  errors' = errors ∨ has_error errors'.
Proof.
  unfold _clean_catalogue_predicate.
  repeat case_match; intros [= <- <-]; auto using has_error_append.
Qed.

Lemma clean_checkout_and_order_predicate_same
  env ci chk currencies errors index instance ci' errors' :
  _clean_checkout_and_order_predicate env ci chk currencies errors index
    instance = Ok (ci', errors') →
  errors' = errors ∨ has_error errors'.
Proof.
  unfold _clean_checkout_and_order_predicate.
  repeat case_match; intros [= <- <-]; auto using has_error_append.
Qed.

Lemma clean_reward_same env ci cat chk currencies errors index instance :
  _clean_reward env ci cat chk currencies errors index instance = errors
  ∨ has_error (_clean_reward env ci cat chk currencies errors index instance).
Proof.
  assert (Hv : ∀ v t e,
    _clean_reward_value env ci v t currencies e index instance = e
    ∨ has_error (_clean_reward_value env ci v t currencies e index instance)).
  { intros v t e. unfold _clean_reward_value, clean_fixed_discount_value,
      clean_percentage_discount_value.
    repeat case_match; auto using has_error_append. }
  unfold _clean_reward.
  repeat case_match; auto;
    try (right; apply has_error_append);
    try (right; by eapply has_error_grow;
           [apply has_error_append
           |first [ apply clean_reward_value_grow
                  | apply errors_append_grow ]]);
    match goal with
    | |- context [_clean_reward_value env ci ?v ?t currencies ?e index
                    instance] =>
        destruct (Hv v t e) as [->|H]; [|by right]
    end; auto;
    try (right; apply has_error_append).
Qed.

Lemma stage_reward_fields ci ci' :
  (ci' = ci
   ∨ (∃ q, ci' = set_catalogue_predicate q ci)
   ∨ (∃ q, ci' = set_checkout_and_order_predicate q ci)) →
  reward_type ci' = reward_type ci
  ∧ reward_value ci' = reward_value ci
  ∧ reward_value_type ci' = reward_value_type ci.
Proof. intros [->|[[q ->]|[q ->]]]; done. Qed.

(** X8.  A create that starts from an empty error map and ends with an
    empty one has passed every check: not both predicates are [None] and
    not both are non-empty; the non-empty predicate is of the kind of the
    promotion; a catalogue rule has no reward type and a checkout/order
    rule has one; a price-based checkout/order predicate comes with at
    most one currency; a rule with a predicate has a reward value and a
    reward value type; a nonzero PERCENTAGE value is at most 100; and a
    nonzero FIXED value comes with exactly one currency, in which its
    precision is valid. *)
Theorem create_without_errors_is_valid env ci index ptype ci' currencies :
  clean_promotion_rule env ci ∅ index ptype None = Ok (ci', ∅) →
  _get_channel_currencies ci None = Ok currencies →
  let cat := get_predicate (catalogue_predicate ci) in
  let chk := get_predicate (checkout_and_order_predicate ci) in
  is_none cat && is_none chk = false
  ∧ truthy cat && truthy chk = false
  ∧ truthy cat && predicate_type_is CHECKOUT_AND_ORDER ptype = false
  ∧ truthy chk && predicate_type_is CATALOGUE ptype = false
  ∧ (truthy cat = true → get (reward_type ci) = None)
  ∧ (truthy chk = true →
     is_some (get (reward_type ci)) = true
     ∧ (price_based chk = true → (size currencies ≤ 1)%nat))
  ∧ (truthy cat || truthy chk = true →
     is_some (get (reward_value ci)) = true
     ∧ is_some (get (reward_value_type ci)) = true)
  ∧ ∀ v t,
      get (reward_value ci) = Some v → ¬ (v == 0)%Q →
      get (reward_value_type ci) = Some t →
      match t with
      | PERCENTAGE => (v <= 100)%Q
      | FIXED =>
          ∃ currency,
            elements currencies = [currency]
            ∧ validate_price_precision env v currency = true
      end.
Proof.
  intros H Hcur cat chk.
  apply clean_promotion_rule_ok in H as (invalid & e1 & H1 & H).
  change (effective_catalogue_predicate ci None) with cat in *.
  change (effective_checkout_and_order_predicate ci None) with chk in *.
  destruct H as [(-> & _ & <-)|(-> & cur & ci2 & e2 & e3 & Hcur' & H2 & H3 & H4)].
  { apply clean_predicates_invalid_create in H1. by apply no_error_empty in H1. }
  rewrite Hcur in Hcur'. injection Hcur' as <-.
  apply clean_predicates_valid in H1 as (-> & Hnone & Hboth & Hp1 & Hp2).
  assert (He3 : e3 = ∅).
  { destruct (clean_reward_same env ci' cat chk currencies e3 index None)
      as [Heq|Herr]; rewrite <- H4 in *; [done |].
    by apply no_error_empty in Herr. }
  subst e3.
  assert (He2 : e2 = ∅).
  { destruct (clean_checkout_and_order_predicate_same _ _ _ _ _ _ _ _ _ H3)
      as [Heq|Herr]; [done | by apply no_error_empty in Herr]. }
  subst e2.
  pose proof (clean_catalogue_predicate_change _ _ _ _ _ _ _ H2) as Hc2.
  pose proof (clean_checkout_and_order_predicate_change _ _ _ _ _ _ _ _ _ H3)
    as Hc3.
  assert (Hf2 : reward_type ci2 = reward_type ci
                ∧ reward_value ci2 = reward_value ci
                ∧ reward_value_type ci2 = reward_value_type ci).
  { apply stage_reward_fields.
    destruct Hc2 as [->|(_ & _ & _ & q & _ & ->)]; [by left |].
    right. left. by exists q. }
  assert (Hf3 : reward_type ci' = reward_type ci2
                ∧ reward_value ci' = reward_value ci2
                ∧ reward_value_type ci' = reward_value_type ci2).
  { apply stage_reward_fields.
    destruct Hc3 as [->|(_ & _ & q & _ & ->)]; [by left |].
    right. right. by exists q. }
  destruct Hf2 as (Ht2 & Hv2 & Hvt2). destruct Hf3 as (Ht3 & Hv3 & Hvt3).
  split; [done |]. split; [done |]. split; [done |]. split; [done |].
  split.
  { by apply (clean_catalogue_predicate_quiet ci cat ∅ index ci2 no_error_empty). }
  split.
  { intros Hchk.
    destruct (clean_checkout_and_order_predicate_quiet env ci2 chk currencies
                ∅ index ci' no_error_empty H3 Hchk) as [Hrt Hprice].
    by rewrite Ht2 in Hrt. }
  symmetry in H4.
  destruct (clean_reward_quiet env ci' cat chk currencies ∅ index
              no_error_empty (lookup_empty _) H4) as [Hreq Hval].
  rewrite Hv3, Hv2, Hvt3, Hvt2 in Hreq, Hval. by split.
Qed.

Lemma create_without_errors_is_valid_witness :
  truthy (get_predicate (catalogue_predicate empty_and_price_input))
  && truthy (get_predicate
               (checkout_and_order_predicate empty_and_price_input)) = false
  ∧ is_some (get (reward_value empty_and_price_input)) = true.
Proof.
  destruct (create_without_errors_is_valid example_validator_env
              empty_and_price_input None None
              (set_checkout_and_order_predicate
                 (PDict [("totalPrice", PDict [("eq", PInt 10)])])
                 empty_and_price_input)
              {["USD"]} eq_refl eq_refl)
    as (_ & Hboth & _ & _ & _ & _ & Hreq & _).
  split; [exact Hboth |]. apply Hreq. reflexivity.
Defined.

(** X9.  On a create with a price-based checkout/order predicate, a reward
    type and channels of more than one currency, the conflict is reported
    once, on [channels]: the FIXED reward of the same input is not checked
    against the currencies again, and the predicate is not normalized. *)
Theorem currency_conflict_is_reported_once
  env ci errors index ptype chk chans v :
  truthy (get_predicate (catalogue_predicate ci)) = false →
  checkout_and_order_predicate ci = Some chk →
  truthy chk = true →
  price_based chk = true →
  predicate_type_is CATALOGUE ptype = false →
  is_some (get (reward_type ci)) = true →
  channels ci = Some (Some chans) →
  (1 < size (currency_codes chans))%nat →
  reward_value ci = Some (Some v) →
  reward_value_type ci = Some (Some FIXED) →
  clean_promotion_rule env ci errors index ptype None
  = Ok (ci, errors_append "channels" (price_currencies_error index) errors).
Proof.
  intros Hcat Hchk Htruthy Hprice Hptype Hrt Hchans Hsize Hv Hvt.
  unfold clean_promotion_rule, _clean_predicates. cbv zeta.
  rewrite Hchk. simpl get_predicate. rewrite Hcat, Htruthy, Hptype.
  rewrite (truthy_not_none _ Htruthy), andb_false_r. simpl.
  unfold _get_channel_currencies. rewrite Hchans. simpl.
  unfold _clean_catalogue_predicate. rewrite Hcat. simpl.
  unfold _clean_checkout_and_order_predicate. rewrite Htruthy. simpl.
  destruct (get (reward_type ci)) as [rt|]; [|done]. simpl.
  apply Nat.ltb_lt in Hsize. rewrite Hsize, Hprice. simpl.
  unfold _clean_reward. simpl. rewrite Hv, Hvt. simpl.
  destruct (Qeq_bool v 0); simpl; [done |].
  unfold _clean_reward_value. by rewrite errors_append_lookup.
Qed.

Lemma currency_conflict_is_reported_once_witness :
  clean_promotion_rule example_validator_env two_currency_fixed_input ∅ None
    None None
  = Ok (two_currency_fixed_input,
        errors_append "channels" (price_currencies_error None) ∅).
Proof.
  apply (currency_conflict_is_reported_once example_validator_env
           two_currency_fixed_input ∅ None None
           (PDict [("total_price", PDict [("eq", PInt 10)])])
           [channel_usd_1; channel_pln] 5%Q);
    try reflexivity.
  vm_compute. lia.
Defined.

(** ** The currencies of an update *)

Lemma elem_of_currency_codes code chans :
  code ∈ currency_codes chans ↔ ∃ c, c ∈ chans ∧ currency_code c = code.
Proof.
  unfold currency_codes. rewrite elem_of_list_to_set, list_elem_of_fmap.
  split; intros (c & H1 & H2); exists c; done.
Qed.

Lemma channel_in_spec c chans :
  channel_in c chans = true ↔ ∃ c', c' ∈ chans ∧ channel_pk c = channel_pk c'.
Proof.
  unfold channel_in. rewrite existsb_exists. split.
  - intros (c' & Hin & Heq). exists c'. split; [by apply list_elem_of_In |].
    by apply Z.eqb_eq.
  - intros (c' & Hin & Heq). exists c'. split; [by apply list_elem_of_In |].
    by apply Z.eqb_eq.
Qed.

Lemma nonempty_list_default {A} (v : option (list A)) :
  match nonempty_list v with
  | Some l => l
  | None => []
  end = default [] v.
Proof. by destruct v as [[|x l]|]. Qed.

(** X10.  On an update, when a channel has one currency wherever it is
    named, the currency set of the validator is contained in the
    currencies of the channels that the rule has once the removed channels
    are taken out and the added ones put in; the two sets are equal when
    no channel that stays has the currency of a removed one. *)
Theorem update_currencies_within_effective_channels ci inst currencies :
  _get_channel_currencies ci (Some inst) = Ok currencies →
  (∀ c c', c ∈ rule_channels inst →
           c' ∈ default [] (get (remove_channels ci)) →
           channel_pk c = channel_pk c' →
           currency_code c = currency_code c') →
  currencies ⊆ spec_channel_currencies ci inst
  ∧ ((∀ c, c ∈ rule_channels inst →
           channel_in c (default [] (get (remove_channels ci))) = false →
           currency_code c
           ∉ currency_codes (default [] (get (remove_channels ci)))) →
     currencies = spec_channel_currencies ci inst).
Proof.
  unfold _get_channel_currencies, spec_channel_currencies, effective_channels.
  intros [= <-] Hsame.
  pose proof (nonempty_list_default (get (remove_channels ci))) as Hrem.
  pose proof (nonempty_list_default (get (add_channels ci))) as Hadd.
  set (removed := default [] (get (remove_channels ci))) in *.
  set (added := default [] (get (add_channels ci))) in *.
  assert (Hcode :
    (match nonempty_list (get (add_channels ci)) with
     | Some add_channels =>
         match nonempty_list (get (remove_channels ci)) with
         | Some remove_channels =>
             currency_codes (rule_channels inst)
             ∖ currency_codes remove_channels
         | None => currency_codes (rule_channels inst)
         end ∪ currency_codes add_channels
     | None =>
         match nonempty_list (get (remove_channels ci)) with
         | Some remove_channels =>
             currency_codes (rule_channels inst)
             ∖ currency_codes remove_channels
         | None => currency_codes (rule_channels inst)
         end
     end)
    = (currency_codes (rule_channels inst) ∖ currency_codes removed)
      ∪ currency_codes added).
  { destruct (nonempty_list (get (add_channels ci)));
      destruct (nonempty_list (get (remove_channels ci)));
      rewrite <- Hrem, <- Hadd; unfold currency_codes; simpl; set_solver. }
  rewrite Hcode. clear Hcode Hrem Hadd.
  assert (Hkept : ∀ code,
    code ∈ currency_codes
             (List.filter (fun c => negb (channel_in c removed))
                (rule_channels inst) ++ added)
    ↔ (∃ c, c ∈ rule_channels inst ∧ channel_in c removed = false
            ∧ currency_code c = code)
      ∨ code ∈ currency_codes added).
  { intros code. rewrite !elem_of_currency_codes. split.
    - intros (c & Hin & Hc). apply elem_of_app in Hin as [Hin|Hin].
      + left. apply list_elem_of_In, filter_In in Hin as [Hin Hf].
        exists c. split; [by apply list_elem_of_In |].
        split; [by apply negb_true_iff | done].
      + right. by exists c.
    - intros [(c & Hin & Hf & Hc)|(c & Hin & Hc)].
      + exists c. split; [|done]. apply elem_of_app. left.
        apply list_elem_of_In, filter_In. split; [by apply list_elem_of_In |].
        by apply negb_true_iff.
      + exists c. split; [|done]. apply elem_of_app. by right. }
  split.
  - intros code [[Hex Hnot]%elem_of_difference|Hin]%elem_of_union;
      apply Hkept; [|by right].
    left. apply elem_of_currency_codes in Hex as (c & Hc & Hcode).
    exists c. split; [done |]. split; [|done].
    destruct (channel_in c removed) eqn:E; [|done]. exfalso.
    apply channel_in_spec in E as (c' & Hc' & Hpk). apply Hnot.
    apply elem_of_currency_codes. exists c'. split; [done |].
    rewrite <- Hcode. symmetry. by apply Hsame.
  - intros Hfree. apply set_eq. intros code. rewrite Hkept.
    rewrite elem_of_union, elem_of_difference. split.
    + intros [[Hex Hnot]|Hin]; [|by right]. left.
      apply elem_of_currency_codes in Hex as (c & Hc & Hcode).
      exists c. split; [done |]. split; [|done].
      destruct (channel_in c removed) eqn:E; [|done]. exfalso.
      apply channel_in_spec in E as (c' & Hc' & Hpk). apply Hnot.
      apply elem_of_currency_codes. exists c'. split; [done |].
      rewrite <- Hcode. symmetry. by apply Hsame.
    + intros [(c & Hc & Hf & Hcode)|Hin]; [|by right]. left. split.
      * apply elem_of_currency_codes. by exists c.
      * rewrite <- Hcode. by apply Hfree.
Qed.

Lemma update_currencies_within_effective_channels_witness :
  spec_channel_currencies remove_pln_input usd_pln_rule = {["USD"]}.
Proof.
  symmetry.
  apply (update_currencies_within_effective_channels remove_pln_input
           usd_pln_rule {["USD"]} eq_refl).
  - intros c c' Hc Hc' Hpk. apply list_elem_of_singleton in Hc'. subst c'.
    apply elem_of_cons in Hc as [->|Hc]; [discriminate Hpk |].
    apply list_elem_of_singleton in Hc. by subst c.
  - intros c Hc Hkept.
    apply elem_of_cons in Hc as [->|Hc].
    + vm_compute. intros H. discriminate H.
    + apply list_elem_of_singleton in Hc. subst c. discriminate Hkept.
Defined.

(** ** What the line loop keeps *)

Lemma store_line_taxes_keeps env cur line price rate pewt :
  variant (store_line_taxes env cur line price rate pewt) = variant line
  ∧ base_unit_price (store_line_taxes env cur line price rate pewt)
    = base_unit_price line
  ∧ undiscounted_base_unit_price
      (store_line_taxes env cur line price rate pewt)
    = undiscounted_base_unit_price line
  ∧ quantity (store_line_taxes env cur line price rate pewt) = quantity line.
Proof. done. Qed.

Lemma lines_loop_keeps env cur cc rate pewt total ot lines tld out :
  lines_loop env cur cc rate pewt total ot lines tld = Ok out →
  Forall2
    (fun line entry =>
       variant (fst entry) = variant line
       ∧ base_unit_price (fst entry) = base_unit_price line
       ∧ undiscounted_base_unit_price (fst entry)
         = undiscounted_base_unit_price line
       ∧ quantity (fst entry) = quantity line
       ∧ (variant line = None → entry = (line, None)))
    lines out.
Proof.
  revert tld out. induction lines as [|line rest IH]; intros tld out; simpl.
  - intros [= <-]. constructor.
  - destruct (variant line) as [v|] eqn:Hv.
    + destruct (negb (Qeq_bool total 0)).
      * intros H. apply bind_ok in H as (d & _ & H).
        apply bind_ok in H as (out' & Hrest & H). injection H as <-.
        constructor; [|by eapply IH]. simpl. by rewrite Hv.
      * intros H. apply bind_ok in H as (out' & Hrest & H). injection H as <-.
        constructor; [|by eapply IH]. simpl. by rewrite Hv.
    + intros H. apply bind_ok in H as (out' & Hrest & H). injection H as <-.
      constructor; [|by eapply IH]. simpl. by rewrite Hv.
Qed.

(** X11.  A run of [update_taxes_for_order_lines] that returns gives back
    one line per line, in the same order; the variant, the base unit
    price, the undiscounted base unit price and the quantity of a line are
    never changed, and a line without a variant is returned as it is. *)
Theorem update_taxes_keeps_lines
  env order lines country_code default_tax_rate prices_entered_with_tax out :
  update_taxes_for_order_lines env order lines country_code default_tax_rate
    prices_entered_with_tax = Ok out →
  length out = length lines
  ∧ Forall2
      (fun line line' =>
         variant line' = variant line
         ∧ base_unit_price line' = base_unit_price line
         ∧ undiscounted_base_unit_price line'
           = undiscounted_base_unit_price line
         ∧ quantity line' = quantity line
         ∧ (variant line = None → line' = line))
      lines out.
Proof.
  unfold update_taxes_for_order_lines, update_taxes_trace. intros H.
  apply bind_ok in H as (entries & Hloop & H). injection H as <-.
  apply lines_loop_keeps in Hloop.
  assert (Hall : Forall2
      (fun line line' =>
         variant line' = variant line
         ∧ base_unit_price line' = base_unit_price line
         ∧ undiscounted_base_unit_price line'
           = undiscounted_base_unit_price line
         ∧ quantity line' = quantity line
         ∧ (variant line = None → line' = line))
      lines (map fst entries)).
  { induction Hloop as [|line entry rest entries' (H1 & H2 & H3 & H4 & H5) Hr IH];
      simpl; constructor; [|done].
    repeat split; try done. intros Hnone. by rewrite (H5 Hnone). }
  split; [|done]. symmetry. by eapply Forall2_length.
Qed.

Lemma update_taxes_keeps_lines_witness :
  ∃ out,
    update_taxes_for_order_lines (example_tax_env 3 25) (example_order [])
      [example_line 10 2; variantless_line] "US" 23 true = Ok out
    ∧ length out = 2%nat
    ∧ out !! 1%nat = Some variantless_line.
Proof.
  eexists. split; [vm_compute; reflexivity |].
  split; [|reflexivity].
  eapply (update_taxes_keeps_lines (example_tax_env 3 25) (example_order [])
            [example_line 10 2; variantless_line] "US" 23 true).
  vm_compute. reflexivity.
Defined.

(** ** Runs without a division *)

Lemma lines_loop_no_discount env cur cc rate pewt total ot lines tld :
  (total == 0)%Q →
  ∃ out,
    lines_loop env cur cc rate pewt total ot lines tld = Ok out
    ∧ discount_shares out = []
    ∧ Forall2
        (fun line entry =>
           fst entry
           = match variant line with
             | None => line
             | Some v =>
                 store_line_taxes env cur line (base_unit_price line)
                   (get_tax_rate_for_tax_class env (line_tax_class v) rate cc)
                   pewt
             end)
        lines out.
Proof.
  intros Hzero. apply Qeq_bool_iff in Hzero.
  induction lines as [|line rest (out & Hout & Hshares & Hall)]; simpl.
  - exists []. split; [done |]. split; [done | constructor].
  - rewrite Hzero, Hout. simpl. destruct (variant line) as [v|] eqn:Hv.
    + eexists. split; [done |]. split; [exact Hshares |].
      constructor; [|done]. simpl. by rewrite Hv.
    + eexists. split; [done |]. split; [exact Hshares |].
      constructor; [|done]. simpl. by rewrite Hv.
Qed.

(** X12.  When there is no discount to distribute, the run always
    returns, whatever the prices and the quantities, zero ones included:
    no share is computed, a line with a variant is taxed on its base unit
    price, and a line without a variant is left as it is. *)
Theorem update_taxes_without_discount
  env order lines country_code default_tax_rate prices_entered_with_tax :
  (get_total_order_discount_excluding_shipping env order == 0)%Q →
  ∃ out,
    update_taxes_trace env order lines country_code default_tax_rate
      prices_entered_with_tax = Ok out
    ∧ discount_shares out = []
    ∧ Forall2
        (fun line entry =>
           fst entry
           = match variant line with
             | None => line
             | Some v =>
                 store_line_taxes env (currency order) line
                   (base_unit_price line)
                   (get_tax_rate_for_tax_class env (line_tax_class v)
                      default_tax_rate country_code)
                   prices_entered_with_tax
             end)
        lines out.
Proof. intros Hzero. by apply lines_loop_no_discount. Qed.

Lemma update_taxes_without_discount_witness :
  ∃ out,
    update_taxes_trace (example_tax_env 0 25) (example_order [])
      [example_line 0 0; variantless_line] "US" 23 false = Ok out
    ∧ discount_shares out = [].
Proof.
  destruct (update_taxes_without_discount (example_tax_env 0 25)
              (example_order []) [example_line 0 0; variantless_line] "US" 23
              false ltac:(vm_compute; reflexivity))
    as (out & Hout & Hshares & _).
  by exists out.
Defined.

(** X13.  A single line with a variant takes the whole discount: its
    share is [total_discount], and the sum of the line totals is not
    divided by, so the run returns even when this sum is zero, as long as
    the quantity is not. *)
Theorem single_line_takes_whole_discount
  env order line v country_code default_tax_rate prices_entered_with_tax :
  let total := get_total_order_discount_excluding_shipping env order in
  variant line = Some v →
  ¬ (total == 0)%Q →
  quantity line ≠ 0 →
  ∃ entry d,
    update_taxes_trace env order [line] country_code default_tax_rate
      prices_entered_with_tax = Ok [(entry, Some d)]
    ∧ (discount_amount d == total)%Q
    ∧ price_with_discounts d
      = money_max
          (quantize_money env
             ((line_total_price line - discount_amount d)
              / inject_Z (quantity line))%Q (currency order))
          (zero_money (currency order)).
Proof.
  intros total Hv Htotal Hq. unfold update_taxes_trace. fold total. simpl.
  rewrite Hv, (total_truthy total Htotal).
  unfold line_discount. simpl.
  assert (Hq' : ¬ (inject_Z (quantity line) == 0)%Q)
    by by rewrite inject_Z_zero.
  rewrite decimal_div_nonzero by done. simpl.
  eexists _, _. split; [done |]. simpl. split; [ring | done].
Qed.

Lemma single_line_takes_whole_discount_witness :
  ∃ entry d,
    update_taxes_trace (example_tax_env 3 25) (example_order [])
      [example_line 0 2] "US" 0 false = Ok [(entry, Some d)]
    ∧ (discount_amount d == 3)%Q.
Proof.
  destruct (single_line_takes_whole_discount (example_tax_env 3 25)
              (example_order []) (example_line 0 2) example_variant "US" 0
              false eq_refl ltac:(vm_compute; discriminate)
              ltac:(discriminate))
    as (entry & d & Hrun & Hshare & _).
  by exists entry, d.
Defined.

(** ** The order total *)

(** X14.  With a positive base total and no manual discount, or a manual
    discount that does not exceed the undiscounted subtotal of the lines,
    nothing is subtracted: the order total is the sum of the discounted
    totals of the lines plus the shipping price, replaced by zero when its
    gross amount is negative, and rounded. *)
Theorem order_total_without_compensation env order lines :
  let cur := currency order in
  let naive :=
    taxed_add (taxed_sum cur (map total_price lines)) (shipping_price order) in
  (0 < base_order_total env order lines)%Q →
  match first_manual_discount order with
  | Some order_discount =>
      (amount order_discount
       <= gross (taxed_sum cur (map undiscounted_total_price lines)))%Q
  | None => True
  end →
  _calculate_order_total env order lines
  = quantize_taxed env (taxed_max naive (zero_taxed_money cur)) cur.
Proof.
  intros cur naive Hbase Hdisc. unfold _calculate_order_total. fold cur.
  rewrite positive_not_le_zero by done. rewrite sum_line_totals_eq.
  fold naive. destruct (first_manual_discount order) as [d|]; [|done].
  apply Qlt_bool_false in Hdisc. by rewrite Hdisc.
Qed.

Lemma order_total_without_compensation_witness :
  (gross (_calculate_order_total (example_tax_env 0 25) (example_order [20%Q])
            [example_line 10 1; example_line 10 1]) == 25)%Q.
Proof.
  rewrite (order_total_without_compensation (example_tax_env 0 25)
             (example_order [20%Q]) [example_line 10 1; example_line 10 1]
             ltac:(vm_compute; reflexivity)
             ltac:(vm_compute; discriminate)).
  vm_compute. reflexivity.
Defined.

(** X15.  When the base total is not negative and the rounding is monotone
    and keeps zero, the gross amount of the order total is not negative,
    whatever the lines, the shipping price and the discounts. *)
Theorem order_total_gross_not_negative env order lines :
  let cur := currency order in
  (0 <= base_order_total env order lines)%Q →
  (∀ q, (q == 0)%Q → (quantize_money env q cur == 0)%Q) →
  (∀ a b, (a <= b)%Q →
          (quantize_money env a cur <= quantize_money env b cur)%Q) →
  (0 <= gross (_calculate_order_total env order lines))%Q.
Proof.
  intros cur Hbase Hzero Hmono. unfold _calculate_order_total. fold cur.
  set (base := base_order_total env order lines) in *.
  destruct (taxed_le (mkTaxedMoney base base) (zero_taxed_money cur)) eqn:E.
  - simpl. assert (Hb : (base == 0)%Q).
    { destruct (Qlt_le_dec 0 base) as [Hpos|Hle]; [|lra].
      rewrite positive_not_le_zero in E by done. discriminate. }
    rewrite (Hzero _ Hb). lra.
  - destruct (sum_line_totals cur lines) as [total undiscounted].
    simpl. rewrite <- (Hzero 0%Q) by reflexivity.
    apply Hmono. apply taxed_max_gross.
Qed.

Lemma order_total_gross_not_negative_witness :
  (0 <= gross (_calculate_order_total (example_tax_env 0 25)
                 (example_order [100%Q])
                 [example_line 10 1; example_line 10 1]))%Q.
Proof.
  apply (order_total_gross_not_negative (example_tax_env 0 25)
           (example_order [100%Q]) [example_line 10 1; example_line 10 1]).
  - vm_compute. discriminate.
  - intros q. apply round_half_up_zero.
  - intros a b. apply round_half_up_monotone.
Defined.

(** ** Price-based predicates *)

Lemma string_app_cons c r t : String c r +:+ t = String c (r +:+ t).
Proof. reflexivity. Qed.

Lemma prefix_empty s : String.prefix "" s = true.
Proof. by destruct s. Qed.

Lemma prefix_app n s t :
  String.prefix n s = true → String.prefix n (s +:+ t) = true.
Proof.
  revert s. induction n as [|a n IH]; intros s.
  - intros _. apply prefix_empty.
  - destruct s as [|b s]; [done |]. rewrite string_app_cons. simpl.
    destruct (ascii_dec a b); [apply IH | done].
Qed.

Lemma str_contains_unfold n s :
  str_contains n s
  = String.prefix n s
    || match s with
       | EmptyString => false
       | String _ r => str_contains n r
       end.
Proof. by destruct s. Qed.

Lemma str_contains_app_l n s t :
  str_contains n s = true → str_contains n (s +:+ t) = true.
Proof.
  induction s as [|c r IH].
  - rewrite str_contains_unfold, orb_false_r. intros H.
    rewrite str_contains_unfold. apply orb_true_iff. left.
    by apply (prefix_app n "" t).
  - rewrite str_contains_unfold, string_app_cons.
    rewrite (str_contains_unfold n (String c (r +:+ t))).
    intros [H|H]%orb_true_iff; apply orb_true_iff.
    + left. by apply (prefix_app n (String c r) t).
    + right. by apply IH.
Qed.

Lemma str_contains_app_r n s t :
  str_contains n t = true → str_contains n (s +:+ t) = true.
Proof.
  intros H. induction s as [|c r IH]; [done |].
  rewrite string_app_cons, str_contains_unfold. apply orb_true_iff. by right.
Qed.

Lemma str_contains_concat n sep part parts :
  part ∈ parts → str_contains n part = true →
  str_contains n (String.concat sep parts) = true.
Proof.
  intros Hin Hpart. induction parts as [|x xs IH]; [by apply elem_of_nil in Hin |].
  apply elem_of_cons in Hin as [<-|Hin].
  - destruct xs as [|y ys]; [done |].
    change (str_contains n (part +:+ sep +:+ String.concat sep (y :: ys)) = true).
    by apply str_contains_app_l.
  - destruct xs as [|y ys]; [by apply elem_of_nil in Hin |].
    change (str_contains n (x +:+ sep +:+ String.concat sep (y :: ys)) = true).
    apply str_contains_app_r, str_contains_app_r. by apply IH.
Qed.

Lemma price_field_in_its_repr field :
  field ∈ price_fields → str_contains field (repr_str field) = true.
Proof.
  unfold price_fields. intros H.
  repeat (apply elem_of_cons in H as [->|H]; [vm_compute; reflexivity |]).
  by apply elem_of_nil in H.
Qed.

Lemma key_in_text field p :
  field ∈ price_fields → has_key field p = true →
  str_contains field (py_str p) = true.
Proof.
  intros Hfield.
  induction p as [| | | |l IH|d IH] using pyval_ind; try done.
  - intros Hkey.
    change (str_contains field
              ("[" +:+ join_with ", " (map py_str l) +:+ "]") = true).
    apply str_contains_app_r, str_contains_app_l.
    simpl in Hkey. apply existsb_exists in Hkey as (v & Hv & Hkv).
    apply list_elem_of_In in Hv. rewrite Forall_forall in IH.
    apply (str_contains_concat _ _ (py_str v)); [|by apply IH].
    apply list_elem_of_fmap. by exists v.
  - intros Hkey.
    change (str_contains field
              ("{" +:+ join_with ", "
                 (map (fun kv => repr_str (fst kv) +:+ ": " +:+ py_str (snd kv))
                    d) +:+ "}") = true).
    apply str_contains_app_r, str_contains_app_l.
    simpl in Hkey. apply existsb_exists in Hkey as ([k v] & Hin & Hkv).
    apply list_elem_of_In in Hin. rewrite Forall_forall in IH.
    apply (str_contains_concat _ _ (repr_str k +:+ ": " +:+ py_str v)).
    + apply list_elem_of_fmap. by exists (k, v).
    + simpl in Hkv. apply orb_true_iff in Hkv as [Hk|Hv].
      * apply String.eqb_eq in Hk. subst k.
        by apply str_contains_app_l, price_field_in_its_repr.
      * apply str_contains_app_r, str_contains_app_r.
        by apply (IH (k, v)).
Qed.

(** X16.  A predicate that has one of the keys [subtotal_price],
    [subtotalPrice], [total_price] and [totalPrice] in a dict at any depth
    is taken for price based. *)
Theorem price_key_makes_price_based field p :
  field ∈ price_fields → has_key field p = true → price_based p = true.
Proof.
  intros Hfield Hkey. unfold price_based. apply existsb_exists.
  exists field. split; [by apply list_elem_of_In |].
  by apply key_in_text.
Qed.

Lemma price_key_makes_price_based_witness :
  price_based
    (PDict [("OR",
             PList [PDict [("discounted_object_predicate", PNone)];
                    PDict [("AND",
                            PList [PDict [("subtotalPrice",
                                           PDict [("gte", PInt 5)])]])]])])
  = true.
Proof.
  apply (price_key_makes_price_based "subtotalPrice").
  - unfold price_fields. set_solver.
  - reflexivity.
Defined.

(** ** Updates *)

(** X17.  On the update of a rule that has a reward type, a catalogue
    predicate is refused with INVALID on [reward_type] when the input does
    not name the reward type; an input that sets the reward type to
    [None] overrides the stored one, and the stage, with no catalogue
    predicate in the input to normalize, records nothing. *)
Theorem stored_reward_type_counts_unless_overridden
  ci cat errors index inst rt :
  truthy cat = true →
  rule_reward_type inst = Some rt →
  (reward_type ci = None →
   _clean_catalogue_predicate ci cat errors index (Some inst)
   = Ok (ci,
         errors_append "reward_type" (reward_type_forbidden_error index)
           errors))
  ∧ (reward_type ci = Some None → catalogue_predicate ci = None →
     _clean_catalogue_predicate ci cat errors index (Some inst)
     = Ok (ci, errors)).
Proof.
  intros Hcat Hrt. unfold _clean_catalogue_predicate, key_in.
  rewrite Hcat. simpl. split.
  - intros Hnone. rewrite Hnone, Hrt. reflexivity.
  - intros Hnull Hkey. rewrite Hnull, Hkey. reflexivity.
Qed.

Lemma stored_reward_type_counts_unless_overridden_witness :
  _clean_catalogue_predicate empty_input
    (PDict [("product", PList [PStr "UHJvZHVjdDox"])]) ∅ (Some 0)
    (Some gift_rule)
  = Ok (empty_input,
        errors_append "reward_type" (reward_type_forbidden_error (Some 0)) ∅).
Proof.
  apply (stored_reward_type_counts_unless_overridden empty_input
           (PDict [("product", PList [PStr "UHJvZHVjdDox"])]) ∅ (Some 0)
           gift_rule GIFT eq_refl eq_refl).
  reflexivity.
Defined.

(** X18.  When a checkout/order predicate of the input passes the checks
    and is normalized, and the promotion of the input has reached the
    limit of rules, the stage records RULES_NUMBER_LIMIT on the predicate
    field, and [cleaned_input] holds the normalized predicate all the
    same; below the limit, or without a promotion in the input, nothing is
    recorded. *)
Theorem rules_limit_after_normalization
  env ci chk (currencies : gset string) errors index instance q :
  truthy chk = true →
  is_some (effective_reward_type ci instance) = true →
  (1 <? size currencies)%nat && price_based chk = false →
  is_some (checkout_and_order_predicate ci) = true →
  clean_predicate chk index = Ok q →
  _clean_checkout_and_order_predicate env ci chk currencies errors index
    instance
  = Ok (set_checkout_and_order_predicate q ci,
        match get (promotion ci) with
        | Some promotion =>
            if CHECKOUT_AND_ORDER_RULES_LIMIT env <=? rules_count promotion
            then errors_append "checkout_and_order_predicate"
                   (rules_limit_error (CHECKOUT_AND_ORDER_RULES_LIMIT env))
                   errors
            else errors
        | None => errors
        end).
Proof.
  intros Hchk Hrt Hprice Hkey Hq. unfold _clean_checkout_and_order_predicate.
  rewrite Hchk. simpl negb at 1. cbv iota.
  rewrite effective_reward_type_eq, Hrt. simpl negb at 1. cbv iota zeta.
  rewrite Hprice.
  change (key_in "checkout_and_order_predicate" ci)
    with (is_some (checkout_and_order_predicate ci)).
  rewrite Hkey, Hq. simpl.
  destruct (get (promotion ci)) as [promotion|]; [|done].
  by destruct (_ <=? _).
Qed.

Lemma rules_limit_after_normalization_witness :
  _clean_checkout_and_order_predicate example_validator_env full_promotion_input
    (PDict [("base_total_price", PDict [("gte", PInt 10)])]) {["USD"]} ∅ None
    None
  = Ok (set_checkout_and_order_predicate
          (PDict [("baseTotalPrice", PDict [("gte", PInt 10)])])
          full_promotion_input,
        errors_append "checkout_and_order_predicate" (rules_limit_error 100)
          ∅).
Proof.
  apply (rules_limit_after_normalization example_validator_env
           full_promotion_input
           (PDict [("base_total_price", PDict [("gte", PInt 10)])]) {["USD"]}
           ∅ None None
           (PDict [("baseTotalPrice", PDict [("gte", PInt 10)])]));
    reflexivity.
Defined.

(** X19.  An update whose input names no predicate, no reward key and no
    channel change is accepted as it is, with no error, when the stored
    rule is consistent: a catalogue rule without a reward type, or a
    checkout/order rule with a reward type whose predicate is not price
    based or whose channels have at most one currency, of the kind of the
    promotion in both cases. *)
Theorem unchanged_update_is_accepted env ci errors index ptype inst :
  catalogue_predicate ci = None →
  checkout_and_order_predicate ci = None →
  reward_type ci = None →
  reward_value ci = None →
  reward_value_type ci = None →
  add_channels ci = None →
  remove_channels ci = None →
  (truthy (rule_catalogue_predicate inst) = true
   ∧ truthy (rule_checkout_and_order_predicate inst) = false
   ∧ rule_reward_type inst = None
   ∧ predicate_type_is CHECKOUT_AND_ORDER ptype = false)
  ∨ (truthy (rule_catalogue_predicate inst) = false
     ∧ truthy (rule_checkout_and_order_predicate inst) = true
     ∧ is_some (rule_reward_type inst) = true
     ∧ predicate_type_is CATALOGUE ptype = false
     ∧ (1 <? size (currency_codes (rule_channels inst)))%nat
       && price_based (rule_checkout_and_order_predicate inst) = false) →
  clean_promotion_rule env ci errors index ptype (Some inst)
  = Ok (ci, errors).
Proof.
  intros Hcat Hchk Hrt Hv Hvt Hadd Hrem Hrule.
  unfold clean_promotion_rule, _clean_predicates, _get_channel_currencies,
    _clean_catalogue_predicate, _clean_checkout_and_order_predicate,
    _clean_reward, key_in, pyval_or.
  destruct Hrule as [(Hc & Hk & Hr & Hp)|(Hc & Hk & Hr & Hp & Hprice)].
  - pose proof (truthy_not_none _ Hc) as Hn.
    repeat (progress (simpl;
                      rewrite ?Hcat, ?Hchk, ?Hrt, ?Hv, ?Hvt, ?Hadd, ?Hrem,
                        ?Hc, ?Hk, ?Hp, ?Hr, ?Hn)).
    reflexivity.
  - pose proof (truthy_not_none _ Hk) as Hn.
    destruct (rule_reward_type inst) as [rt|]; [|done].
    repeat (progress (simpl;
                      rewrite ?Hcat, ?Hchk, ?Hrt, ?Hv, ?Hvt, ?Hadd, ?Hrem,
                        ?Hc, ?Hk, ?Hp, ?Hn, ?Hprice, ?andb_false_r)).
    reflexivity.
Qed.

Lemma unchanged_update_is_accepted_witness :
  clean_promotion_rule example_validator_env empty_input ∅ None
    (Some CATALOGUE) (Some two_usd_channels_rule)
  = Ok (empty_input, ∅).
Proof.
  apply (unchanged_update_is_accepted example_validator_env empty_input ∅ None
           (Some CATALOGUE) two_usd_channels_rule);
    try reflexivity.
  left. repeat split.
Defined.
